(** * compas geometry kernel: [Arc] and [Quaternion]

    A shallow embedding of [src/compas/geometry/curves/arc.py] and
    [src/compas/geometry/xforms/quaternion.py], followed by the network
    artist of [src/compas_plotters/artists/networkartist.py] and the plural
    accessors of [src/compas_blender/geometry/mesh.py].

    Conventions of the embedding.
    - Python floats are idealised as real numbers ([R]); [math.pi] is the
      real [PI] and the module constant [PI2 = 2.0 * math.pi] is [2 * PI].
    - A Python attribute that may hold [None] is an [option]; a Python value
      of unknown dynamic type is a [val].
    - A raised exception is the [Raise] outcome of a [result]; the methods of
      an [Arc] run in a state-and-exception monad over the receiver, so that
      attribute writes made before a [raise] are kept, as in Python.
    - Quaternion objects live in a store indexed by object identity, so that
      "returns a new instance" and "updates the receiver in place" can be
      told apart. *)

From Stdlib Require Import Reals Lra ZArith String List.
From stdpp Require Import gmap strings.

Local Open Scope R_scope.
Local Open Scope string_scope.

(** ** Exceptions and outcomes *)

(** Only subclasses of [Exception] occur; a [ValueError] carries its message
    template and the real arguments given to [str.format]. *)
Inductive exn : Type :=
| ValueError (msg : string) (args : list R)
| KeyError
| IndexError
| TypeError
| ZeroDivisionError.

Inductive result (A : Type) : Type :=
| Ok (a : A)
| Raise (e : exn).
Arguments Ok {A} a.
Arguments Raise {A} e.

(** ** Comparisons of floats, as booleans *)

Definition Rltb (x y : R) : bool := if Rlt_dec x y then true else false.
Definition Rleb (x y : R) : bool := if Rle_dec x y then true else false.
Definition Reqb (x y : R) : bool := if Req_dec_T x y then true else false.

(** [PI2 = 2.0 * math.pi]. *)
Definition PI2 : R := 2 * PI.

(** Error messages of [arc.py], by the name the specification gives to the
    error. All of them are [ValueError]s in the source. *)
Definition NotSet_radius : exn := ValueError "Radius not set." [].
Definition NotSet_end_angle : exn := ValueError "End angle not set." [].
Definition InvalidValue_radius : exn :=
  ValueError "Radius must be greater than or equal to zero." [].
Definition InvalidValue_start_angle : exn :=
  ValueError "Start angle must satisfy 0 <= angle <= 2 * pi." [].
Definition InvalidValue_end_angle : exn :=
  ValueError "End angle must satisfy 0 <= angle <= 2 * pi." [].
Definition InvalidGeometry (angle : R) : exn :=
  ValueError "Sweep angle must satisfy 0 < angle < 2 * Pi. Currently:{}" [angle].

Module Arc.
Section WithFrame.

(** The coordinate frame is an external collaborator
    ([compas.geometry.Frame]); its type is a parameter. *)
Context {Frame : Type}.

(** Python values that reach an [Arc]. *)
Inductive val : Type :=
| VNone
| VFloat (x : R)
| VFrame (f : Frame).

(** [Frame.__eq__] is external as well: a parameter, applied to the frame
    and to whatever it is compared with. *)
Context (Frame_eq : Frame -> val -> bool).

(** [a == b] on values. [float.__eq__] and [NoneType.__eq__] answer
    [NotImplemented] for a frame, and Python then asks the frame. *)
Definition py_eq (a b : val) : bool :=
  match a, b with
  | VFrame f, _ => Frame_eq f b
  | _, VFrame g => Frame_eq g a
  | VFloat x, VFloat y => Reqb x y
  | VNone, VNone => true
  | _, _ => false
  end.

(** The instance attributes of an [Arc]. *)
Record Arc : Type := mkArc {
  _frame : val;
  _radius : option R;
  _start_angle : option R;
  _end_angle : option R
}.

(** *** The monad of methods *)

Definition M (A : Type) : Type := Arc -> result A * Arc.

Definition ret {A} (a : A) : M A := fun self => (Ok a, self).
Definition raise {A} (e : exn) : M A := fun self => (Raise e, self).
Definition bind {A B} (m : M A) (k : A -> M B) : M B :=
  fun self =>
    match m self with
    | (Ok a, self') => k a self'
    | (Raise e, self') => (Raise e, self')
    end.
Definition get : M Arc := fun self => (Ok self, self).
Definition put (a : Arc) : M unit := fun _ => (Ok tt, a).

Notation "x <- m ;; k" := (bind m (fun x => k))
  (at level 100, m at next level, right associativity).
Notation "m ;;; k" := (bind m (fun _ => k))
  (at level 100, right associativity).

(** Whether the outcome of a method is the exception [e]. *)
Definition raises {A} (out : result A * Arc) (e : exn) : Prop :=
  fst out = Raise e.

(** *** Properties (arc.py, lines 185-219) *)

(** Modelled from the spec: the [frame] property belongs to the base class
    [Curve], which is not part of the sources; it is a stored attribute. *)
Definition frame : M val := self <- get ;; ret (_frame self).

Definition set_frame (value : val) : M unit :=
  self <- get ;;
  put (mkArc value (_radius self) (_start_angle self) (_end_angle self)).

Definition radius : M R :=
  self <- get ;;
  match _radius self with
  | None => raise NotSet_radius
  | Some r => ret r
  end.

Definition set_radius (value : val) : M unit :=
  match value with
  | VFloat v =>
      if Rleb v 0 then raise InvalidValue_radius
      else self <- get ;;
           put (mkArc (_frame self) (Some v) (_start_angle self) (_end_angle self))
  | _ => raise TypeError
  end.

Definition start_angle : M R :=
  self <- get ;;
  match _start_angle self with
  | None =>
      put (mkArc (_frame self) (_radius self) (Some 0) (_end_angle self)) ;;;
      ret 0
  | Some a => ret a
  end.

Definition set_start_angle (value : val) : M unit :=
  match value with
  | VFloat v =>
      if Rltb v 0 || Rltb PI2 v then raise InvalidValue_start_angle
      else self <- get ;;
           put (mkArc (_frame self) (_radius self) (Some v) (_end_angle self))
  | _ => raise TypeError
  end.

Definition end_angle : M R :=
  self <- get ;;
  match _end_angle self with
  | None => raise NotSet_end_angle
  | Some a => ret a
  end.

Definition set_end_angle (value : val) : M unit :=
  match value with
  | VFloat v =>
      if Rltb v 0 || Rltb PI2 v then raise InvalidValue_end_angle
      else self <- get ;;
           put (mkArc (_frame self) (_radius self) (_start_angle self) (Some v))
  | _ => raise TypeError
  end.

(** *** Derived properties (arc.py, lines 221-259) *)

(** Modelled from the spec: [compas.geometry.Circle] is an external
    collaborator that supplies a frame and a radius; its constructor keeps
    the two arguments it is given. *)
Record Circle : Type := mkCircle {
  Circle_frame : val;
  Circle_radius : R
}.

Definition circle : M Circle :=
  f <- frame ;; r <- radius ;; ret (mkCircle f r).

(** [self.end_angle - self.start_angle]: the left operand is read first. *)
Definition angle : M R :=
  e <- end_angle ;; s <- start_angle ;; ret (e - s).

Definition length : M R :=
  r <- radius ;; a <- angle ;; ret (r * a).

Definition diameter : M R :=
  r <- radius ;; ret (2 * r).

Definition circumference : M R :=
  d <- diameter ;; ret (d * PI).

Definition is_closed : M bool := ret false.
Definition is_periodic : M bool := ret false.

(** [_verify] (arc.py, lines 261-263). [self.angle] is read once per
    comparison and once more to format the message. *)
Definition _verify : M unit :=
  a1 <- angle ;;
  if Rltb a1 0 then (a3 <- angle ;; raise (InvalidGeometry a3))
  else
    a2 <- angle ;;
    if Rltb PI2 a2 then (a3 <- angle ;; raise (InvalidGeometry a3))
    else ret tt.

(** *** Positional access (arc.py, lines 116-144) *)

Definition __len__ : M Z := ret 4%Z.

Definition __getitem__ (key : Z) : M val :=
  if (key =? 0)%Z then frame
  else if (key =? 1)%Z then (r <- radius ;; ret (VFloat r))
  else if (key =? 2)%Z then (a <- start_angle ;; ret (VFloat a))
  else if (key =? 3)%Z then (a <- end_angle ;; ret (VFloat a))
  else raise KeyError.

Definition __setitem__ (key : Z) (value : val) : M unit :=
  if (key =? 0)%Z then set_frame value
  else if (key =? 1)%Z then set_radius value
  else if (key =? 2)%Z then set_start_angle value
  else if (key =? 3)%Z then set_end_angle value
  else raise KeyError.

Definition __iter__ : M (list val) :=
  f <- frame ;; r <- radius ;; s <- start_angle ;; e <- end_angle ;;
  ret [f; VFloat r; VFloat s; VFloat e].

(** *** Equality (arc.py, lines 146-159) *)

(** The right operand of [==] is any Python object; what matters is the
    outcome of [other[key]]. [PObj] is an object given by its own
    [__getitem__]; it is a distinct object from the receiver. *)
Inductive pyobj : Type :=
| PNone
| PFloat (x : R)
| PList (l : list val)
| PArc (a : Arc)
| PObj (getitem : Z -> result val).

(** [l[key]] on a Python list. *)
Definition list_getitem (l : list val) (key : Z) : result val :=
  let i := if (key <? 0)%Z then (key + Z.of_nat (List.length l))%Z else key in
  if (i <? 0)%Z then Raise IndexError
  else match nth_error l (Z.to_nat i) with
       | Some v => Ok v
       | None => Raise IndexError
       end.

(** [other[key]], with the state of [other] afterwards (an arc's
    [start_angle] getter may write its default). *)
Definition subscript (other : pyobj) (key : Z) : result val * pyobj :=
  match other with
  | PNone | PFloat _ => (Raise TypeError, other)
  | PList l => (list_getitem l key, other)
  | PArc a => let '(r, a') := __getitem__ key a in (r, PArc a')
  | PObj g => (g key, other)
  end.

(** The body of the [try] block: the four reads, in order, stopping at the
    first exception. *)
Definition try_components (other : pyobj) : result (val * val * val * val) :=
  match subscript other 0 with
  | (Raise e, _) => Raise e
  | (Ok other_frame, o1) =>
    match subscript o1 1 with
    | (Raise e, _) => Raise e
    | (Ok other_radius, o2) =>
      match subscript o2 2 with
      | (Raise e, _) => Raise e
      | (Ok other_start, o3) =>
        match subscript o3 3 with
        | (Raise e, _) => Raise e
        | (Ok other_end, _) =>
            Ok (other_frame, other_radius, other_start, other_end)
        end
      end
    end
  end.

(** [x and y] where [x] is a boolean: [y] is evaluated only if [x] holds. *)
Definition and_then (m : M bool) (k : M bool) : M bool :=
  b <- m ;; if b then k else ret false.

Definition __eq__ (other : pyobj) : M bool :=
  match try_components other with
  | Raise _ => ret false
  | Ok (other_frame, other_radius, other_start, other_end) =>
      and_then (f <- frame ;; ret (py_eq f other_frame))
     (and_then (r <- radius ;; ret (py_eq (VFloat r) other_radius))
     (and_then (s <- start_angle ;; ret (py_eq (VFloat s) other_start))
               (e <- end_angle ;; ret (py_eq (VFloat e) other_end))))
  end.

(** *** Data (arc.py, lines 165-179) *)

Definition opt_val (o : option R) : val :=
  match o with
  | Some x => VFloat x
  | None => VNone
  end.

Definition data : M (gmap string val) :=
  self <- get ;;
  ret (<["frame" := _frame self]>
       (<["radius" := opt_val (_radius self)]>
       (<["start_angle" := opt_val (_start_angle self)]>
       (<["end_angle" := opt_val (_end_angle self)]> ∅)))).

(** [value[key]] on a dict. *)
Definition dict_getitem (value : gmap string val) (key : string) : M val :=
  match value !! key with
  | Some v => ret v
  | None => raise KeyError
  end.

Definition set_data (value : gmap string val) : M unit :=
  (v <- dict_getitem value "frame" ;; set_frame v) ;;;
  (v <- dict_getitem value "radius" ;; set_radius v) ;;;
  (v <- dict_getitem value "start_angle" ;; set_start_angle v) ;;;
  (v <- dict_getitem value "end_angle" ;; set_end_angle v).

(** *** Construction (arc.py, lines 92-106 and 269-292) *)

(** Modelled from the spec: [Curve.__init__] is not part of the sources; it
    records the frame it is given. *)
Definition Curve___init__ (frame : val) : M unit := set_frame frame.

Definition __init__ (frame radius start_angle end_angle : val) : M unit :=
  Curve___init__ frame ;;;
  (self <- get ;; put (mkArc (_frame self) None None None)) ;;;
  set_radius radius ;;;
  set_start_angle start_angle ;;;
  set_end_angle end_angle.

(** What [object.__new__(cls)] gives before any attribute is written. *)
Definition blank : Arc := mkArc VNone None None None.

Definition __new__ (frame radius start_angle end_angle : val) : result Arc :=
  match __init__ frame radius start_angle end_angle blank with
  | (Ok _, curve) => Ok curve
  | (Raise e, _) => Raise e
  end.

(** The call [Arc(frame, radius, start_angle, end_angle)]: [__new__] returns
    an instance of the class, so Python runs [__init__] on it once more. *)
Definition new (frame radius start_angle end_angle : val) : result Arc :=
  match __new__ frame radius start_angle end_angle with
  | Raise e => Raise e
  | Ok curve =>
      match __init__ frame radius start_angle end_angle curve with
      | (Ok _, curve') => Ok curve'
      | (Raise e, _) => Raise e
      end
  end.

Definition from_circle (circle : Circle) (start_angle end_angle : val)
  : result Arc :=
  new (Circle_frame circle) (VFloat (Circle_radius circle)) start_angle end_angle.

End WithFrame.

Arguments val : clear implicits.
Arguments Arc : clear implicits.
Arguments Circle : clear implicits.
Arguments pyobj : clear implicits.
Arguments M : clear implicits.

End Arc.

Module Quaternion.

(** The four float attributes of a [Quaternion] object. *)
Record Quaternion : Type := mkQuaternion {
  w : R;
  x : R;
  y : R;
  z : R
}.

(** Objects are named by their identity; the store maps the identities of
    the live objects to their attributes. *)
Abbreviation loc := positive.
Abbreviation heap := (gmap positive Quaternion).

(** [list(q)] for the attributes [q]: what [__iter__] yields. *)
Definition components (q : Quaternion) : list R := [w q; x q; y q; z q].

Section WithAlgebra.

(** The free functions of [compas.geometry.transformations] are external:
    each is a parameter, a function from its arguments to its outcome. *)
Context (quaternion_multiply : list R -> list R -> result (list R)).
Context (quaternion_conjugate : list R -> result (list R)).
Context (quaternion_unitize : list R -> result (list R)).
Context (quaternion_canonize : list R -> result (list R)).
Context (quaternion_norm : list R -> result R).
Context (quaternion_is_unit : list R -> result bool).

(** Methods are store transformers. [None] is not a Python outcome: it is
    the answer for a reference to no object, which a program cannot build. *)
Definition M (A : Type) : Type := heap -> option (result A * heap).

Definition ret {A} (a : A) : M A := fun h => Some (Ok a, h).
Definition raise {A} (e : exn) : M A := fun h => Some (Raise e, h).
Definition bind {A B} (m : M A) (k : A -> M B) : M B :=
  fun h =>
    match m h with
    | Some (Ok a, h') => k a h'
    | Some (Raise e, h') => Some (Raise e, h')
    | None => None
    end.
Definition lift {A} (r : result A) : M A :=
  match r with
  | Ok a => ret a
  | Raise e => raise e
  end.

Notation "x <- m ;; k" := (bind m (fun x => k))
  (at level 100, m at next level, right associativity).

(** Reading the attributes of [self], writing them, creating an object. *)
Definition deref (self : loc) : M Quaternion :=
  fun h => match h !! self with
           | Some q => Some (Ok q, h)
           | None => None
           end.

Definition assign (self : loc) (q : Quaternion) : M unit :=
  fun h => match h !! self with
           | Some _ => Some (Ok tt, <[self := q]> h)
           | None => None
           end.

Definition alloc (q : Quaternion) : M loc :=
  fun h => let l := fresh (dom h) in Some (Ok l, <[l := q]> h).

(** [Quaternion(w, x, y, z)]: [float(_)] is the identity on reals. *)
Definition new (w x y z : R) : M loc := alloc (mkQuaternion w x y z).

(** [Quaternion] called on the unpacked sequence [p]: [__init__] takes
    exactly four arguments. *)
Definition new_star (p : list R) : M loc :=
  match p with
  | [w; x; y; z] => new w x y z
  | _ => raise TypeError
  end.

(** [self.w, self.x, self.y, self.z = p]: the sequence is unpacked before
    any attribute is written. *)
Definition assign_star (self : loc) (p : list R) : M unit :=
  match p with
  | [w; x; y; z] => assign self (mkQuaternion w x y z)
  | _ => raise (ValueError "values to unpack (expected 4)" [])
  end.

(** [list(self)], through [__iter__]. *)
Definition __iter__ (self : loc) : M (list R) :=
  q <- deref self ;; ret [w q; x q; y q; z q].

Definition wxyz (self : loc) : M (list R) :=
  q <- deref self ;; ret [w q; x q; y q; z q].

Definition xyzw (self : loc) : M (list R) :=
  q <- deref self ;; ret [x q; y q; z q; w q].

Definition __mul__ (self other : loc) : M loc :=
  r <- __iter__ self ;;
  q <- __iter__ other ;;
  p <- lift (quaternion_multiply r q) ;;
  new_star p.

Definition conjugate (self : loc) : M loc :=
  q <- __iter__ self ;;
  qc <- lift (quaternion_conjugate q) ;;
  new_star qc.

Definition unitize (self : loc) : M unit :=
  q <- __iter__ self ;;
  qu <- lift (quaternion_unitize q) ;;
  assign_star self qu.

Definition is_unit (self : loc) : M bool :=
  q <- __iter__ self ;; lift (quaternion_is_unit q).

Definition unitized (self : loc) : M loc :=
  q <- __iter__ self ;;
  qu <- lift (quaternion_unitize q) ;;
  new_star qu.

Definition canonize (self : loc) : M unit :=
  q <- __iter__ self ;;
  qc <- lift (quaternion_canonize q) ;;
  assign_star self qc.

Definition canonized (self : loc) : M loc :=
  q <- __iter__ self ;;
  qc <- lift (quaternion_canonize q) ;;
  new_star qc.

Definition norm (self : loc) : M R :=
  q <- __iter__ self ;; lift (quaternion_norm q).

(** [from_frame] (quaternion.py, lines 133-157). The argument is the value
    of [frame.quaternion], which the external frame supplies; it is unpacked
    into exactly four names before the object is built. *)
Definition from_frame (frame_quaternion : list R) : M loc :=
  match frame_quaternion with
  | [w; x; y; z] => new w x y z
  | _ => raise (ValueError "values to unpack (expected 4)" [])
  end.

End WithAlgebra.
End Quaternion.

(** ** The quaternion algebra of [compas.geometry.transformations] *)

Module transformations.

(** Modelled from the spec: [quaternion_conjugate] is not part of the
    sources; on a four-element sequence it keeps [w] and negates [x], [y]
    and [z]. *)
Definition quaternion_conjugate (q : list R) : result (list R) :=
  match q with
  | [w; x; y; z] => Ok [w; - x; - y; - z]
  | _ => Raise IndexError
  end.

(** Modelled from the spec: [quaternion_norm] is not part of the sources;
    it is the Euclidean length [sqrt(w^2 + x^2 + y^2 + z^2)]. *)
Definition quaternion_norm (q : list R) : result R :=
  match q with
  | [w; x; y; z] => Ok (sqrt (w * w + x * x + y * y + z * z))
  | _ => Raise IndexError
  end.

(** Modelled from the spec: [quaternion_unitize] is not part of the
    sources; it divides the four components by the norm, and the division
    is unguarded: a float division by zero raises [ZeroDivisionError]. *)
Definition quaternion_unitize (q : list R) : result (list R) :=
  match quaternion_norm q with
  | Raise e => Raise e
  | Ok n =>
      if Reqb n 0 then Raise ZeroDivisionError
      else Ok (map (fun c => c / n) q)
  end.

(** Modelled from the spec: [quaternion_canonize] is not part of the
    sources; it flips the four signs when the scalar part is negative. *)
Definition quaternion_canonize (q : list R) : result (list R) :=
  match q with
  | [w; x; y; z] => if Rltb w 0 then Ok [- w; - x; - y; - z] else Ok q
  | _ => Raise IndexError
  end.

(** Modelled from the spec: [quaternion_multiply] is not part of the
    sources; it is the Hamilton product of two four-element sequences. *)
Definition quaternion_multiply (r q : list R) : result (list R) :=
  match r, q with
  | [rw; rx; ry; rz], [qw; qx; qy; qz] =>
      Ok [rw * qw - rx * qx - ry * qy - rz * qz;
          rw * qx + rx * qw + ry * qz - rz * qy;
          rw * qy - rx * qz + ry * qw + rz * qx;
          rw * qz + rx * qy - ry * qx + rz * qw]
  | _, _ => Raise IndexError
  end.

End transformations.

(** ** A concrete frame *)

(** Modelled from the spec: a frame is an origin and two axes of an
    orthonormal basis; [Frame.__eq__] is taken componentwise, and a frame
    differs from whatever is not a frame. It instantiates the parameters
    [Frame] and [Frame_eq] of [Arc]. *)
Module WorldFrame.

Record Frame : Type := mkFrame {
  point : R * R * R;
  xaxis : R * R * R;
  yaxis : R * R * R
}.

Definition vec_eqb (u v : R * R * R) : bool :=
  let '(a, b, c) := u in
  let '(a', b', c') := v in
  Reqb a a' && Reqb b b' && Reqb c c'.

Definition Frame_eq (f : Frame) (other : Arc.val Frame) : bool :=
  match other with
  | Arc.VFrame g =>
      vec_eqb (point f) (point g) && vec_eqb (xaxis f) (xaxis g)
      && vec_eqb (yaxis f) (yaxis g)
  | _ => false
  end.

Definition worldXY : Frame := mkFrame (0, 0, 0) (1, 0, 0) (0, 1, 0).

End WorldFrame.

(** ** Sample objects *)

(** The arc [Arc(worldXY, 1.0, 0.0, 0.0)]. *)
Definition degenerate_arc : Arc.Arc WorldFrame.Frame :=
  Arc.mkArc (Arc.VFrame WorldFrame.worldXY) (Some 1) (Some 0) (Some 0).

(** The arc [Arc(worldXY, 2.0, 0.0, math.pi)]. *)
Definition half_circle : Arc.Arc WorldFrame.Frame :=
  Arc.mkArc (Arc.VFrame WorldFrame.worldXY) (Some 2) (Some 0) (Some PI).

(** The circle [Circle(worldXY, 2.0)]. *)
Definition circle_of_radius_2 : Arc.Circle WorldFrame.Frame :=
  Arc.mkCircle (Arc.VFrame WorldFrame.worldXY) 2.

(** A store with the single object [Quaternion(1, 2, 3, 4)]. *)
Definition store1234 : gmap positive Quaternion.Quaternion :=
  {[ 1%positive := Quaternion.mkQuaternion 1 2 3 4 ]}.

(** A store with the objects [Quaternion(-2, 0, 0, 0)] and
    [Quaternion(1, 2, 3, 4)]. *)
Definition store2 : gmap positive Quaternion.Quaternion :=
  <[ 1%positive := Quaternion.mkQuaternion (- 2) 0 0 0 ]>
    {[ 2%positive := Quaternion.mkQuaternion 1 2 3 4 ]}.

(** ** The network artist of [compas_plotters] *)

(** [src/compas_plotters/artists/networkartist.py]. The network, the plotter
    and matplotlib are external: the network is given by what its methods
    return, the axes of the plotter by the list of the collections added to
    them, a matplotlib object by the arguments of its constructor. *)
Module NetworkArtist.

Inductive error : Type :=
| KeyError
| TypeError
| ZeroDivisionError
| AttributeError
| NotImplementedError.

Inductive outcome (A : Type) : Type :=
| Done (a : A)
| Fail (e : error).
Arguments Done {A} a.
Arguments Fail {A} e.

(** An item of a sequence: a number ([int] or [float]) or anything else. *)
Inductive item : Type :=
| Num (x : R)
| Other.

(** [isinstance(c, (int, float))]. *)
Definition is_number (c : item) : bool :=
  match c with
  | Num _ => true
  | Other => false
  end.

(** A colour is kept as the sequence it was given as. *)
Definition color : Type := list item.

(** What is assigned to a colour property: a dict of colours, a sequence, or
    an object without a length (a number, [None]). *)
Inductive color_arg (K : Type) `{Countable K} : Type :=
| CDict (d : gmap K color)
| CSeq (l : list item)
| CNum (x : R)
| CNone.
Arguments CDict {K _ _} d.
Arguments CSeq {K _ _} l.
Arguments CNum {K _ _} x.
Arguments CNone {K _ _}.

(** What is assigned to [edgewidth]: a dict of widths, a number, or
    anything else. *)
Inductive width_arg : Type :=
| WDict (d : gmap (Z * Z) R)
| WNum (x : R)
| WOther.

(** The arguments of [LineCollection] and of [Circle] that vary. *)
Record LineCollection : Type := mkLineCollection {
  lines : list ((R * R) * (R * R));
  linewidths : list R;
  colors : list color;
  lines_zorder : Z
}.

Record Circle : Type := mkCircle {
  center : R * R;
  radius : R;
  facecolor : color
}.

Inductive collection : Type :=
| Lines (c : LineCollection)
| Patches (circles : list Circle) (zorder : Z).

Definition default_nodecolor : color := [Num 1; Num 1; Num 1].
Definition default_edgecolor : color := [Num 0; Num 0; Num 0].
Definition default_edgewidth : R := 1.
Definition zorder_edges : Z := 2000.
Definition zorder_nodes : Z := 3000.

(** The attributes of the artist, and the axes of its plotter. *)
Record NetworkArtist : Type := mkNetworkArtist {
  show_nodes : bool;
  show_edges : bool;
  nodesize : R;
  sizepolicy : string;
  _nodecolor : option (gmap Z color);
  _edgecolor : option (gmap (Z * Z) color);
  _edgewidth : option (gmap (Z * Z) R);
  _mpl_edge_collection : option LineCollection;
  axes : list collection
}.

Definition M (A : Type) : Type := NetworkArtist -> outcome A * NetworkArtist.

Definition ret {A} (a : A) : M A := fun self => (Done a, self).
Definition raise {A} (e : error) : M A := fun self => (Fail e, self).
Definition bind {A B} (m : M A) (k : A -> M B) : M B :=
  fun self =>
    match m self with
    | (Done a, self') => k a self'
    | (Fail e, self') => (Fail e, self')
    end.
Definition get : M NetworkArtist := fun self => (Done self, self).

(** [{key: value for key in keys}]. *)
Definition dict_of_keys {K V} `{Countable K} (keys : list K) (value : V)
  : gmap K V :=
  foldl (fun d key => <[key := value]> d) ∅ keys.

(** [d.get(key, default)]. *)
Definition dict_get {K V} `{Countable K} (d : gmap K V) (key : K) (default : V)
  : V :=
  match d !! key with
  | Some v => v
  | None => default
  end.

Section WithNetwork.

(** The network: [network.nodes()], [network.edges()],
    [network.node_attributes(node, 'xy')] and [network.number_of_nodes()];
    [plotter.dpi]. *)
Context (nodes : list Z).
Context (edges : list (Z * Z)).
Context (node_attributes_xy : Z -> R * R).
Context (number_of_nodes : R).
Context (dpi : R).

Notation "x <- m ;; k" := (bind m (fun x => k))
  (at level 100, m at next level, right associativity).
Notation "m ;;; k" := (bind m (fun _ => k))
  (at level 100, right associativity).

(** The branch shared by the setters of [nodecolor] and [edgecolor]
    (lines 43-48 and 57-62): a dict is kept, a sequence of three numbers is
    given to every key, anything else with a length gives the empty dict,
    and [len] of an object without a length raises [TypeError]. *)
Definition color_dict {K} `{Countable K} (keys : list K) (arg : color_arg K)
  : outcome (gmap K color) :=
  match arg with
  | CDict d => Done d
  | CSeq l =>
      if (List.length l =? 3)%nat && forallb is_number l
      then Done (dict_of_keys keys l)
      else Done ∅
  | CNum _ | CNone => Fail TypeError
  end.

Definition nodecolor : M (option (gmap Z color)) :=
  self <- get ;; ret (_nodecolor self).

Definition set_nodecolor (arg : color_arg Z) : M unit :=
  fun self =>
    match color_dict nodes arg with
    | Done d =>
        (Done tt,
         mkNetworkArtist (show_nodes self) (show_edges self) (nodesize self)
           (sizepolicy self) (Some d) (_edgecolor self) (_edgewidth self)
           (_mpl_edge_collection self) (axes self))
    | Fail e => (Fail e, self)
    end.

Definition edgecolor : M (option (gmap (Z * Z) color)) :=
  self <- get ;; ret (_edgecolor self).

Definition set_edgecolor (arg : color_arg (Z * Z)) : M unit :=
  fun self =>
    match color_dict edges arg with
    | Done d =>
        (Done tt,
         mkNetworkArtist (show_nodes self) (show_edges self) (nodesize self)
           (sizepolicy self) (_nodecolor self) (Some d) (_edgewidth self)
           (_mpl_edge_collection self) (axes self))
    | Fail e => (Fail e, self)
    end.

Definition edgewidth : M (option (gmap (Z * Z) R)) :=
  self <- get ;; ret (_edgewidth self).

Definition set_edgewidth (arg : width_arg) : M unit :=
  fun self =>
    let d := match arg with
             | WDict d => d
             | WNum x => dict_of_keys edges x
             | WOther => ∅
             end in
    (Done tt,
     mkNetworkArtist (show_nodes self) (show_edges self) (nodesize self)
       (sizepolicy self) (_nodecolor self) (_edgecolor self) (Some d)
       (_mpl_edge_collection self) (axes self)).

(** [__init__] (lines 18-34), the plotter having the axes [axes0]. *)
Definition __init__ (axes0 : list collection) (show_nodes show_edges : bool)
    (nodesize : R) (sizepolicy : string) (nodecolor : color_arg Z)
    (edgewidth : width_arg) (edgecolor : color_arg (Z * Z))
  : outcome unit * NetworkArtist :=
  (set_nodecolor nodecolor ;;;
   set_edgewidth edgewidth ;;;
   set_edgecolor edgecolor)
    (mkNetworkArtist show_nodes show_edges nodesize sizepolicy None None None
       None axes0).

(** [x / y] on numbers. *)
Definition divide (x y : R) : outcome R :=
  if Reqb y 0 then Fail ZeroDivisionError else Done (x / y).

(** [node_xy = {node: network.node_attributes(node, 'xy') for node in ...}]. *)
Definition node_xy : gmap Z (R * R) :=
  foldl (fun d node => <[node := node_attributes_xy node]> d) ∅ nodes.

(** An attribute that is still [None] has no method [get]. *)
Definition the_dict {D} (d : option D) : outcome D :=
  match d with
  | Some d => Done d
  | None => Fail AttributeError
  end.

(** The loop over the edges (lines 90-93): the three lists grow together;
    [node_xy[...]] raises [KeyError] for an end that is not a node. *)
Fixpoint edge_loop (edgecolor : option (gmap (Z * Z) color))
    (edgewidth : option (gmap (Z * Z) R)) (todo : list (Z * Z))
    (lines : list ((R * R) * (R * R))) (colors : list color) (widths : list R)
  : outcome (list ((R * R) * (R * R)) * list color * list R) :=
  match todo with
  | [] => Done (lines, colors, widths)
  | edge :: todo' =>
      match node_xy !! fst edge with
      | None => Fail KeyError
      | Some p0 =>
          match node_xy !! snd edge with
          | None => Fail KeyError
          | Some p1 =>
              match the_dict edgecolor with
              | Fail e => Fail e
              | Done ec =>
                  match the_dict edgewidth with
                  | Fail e => Fail e
                  | Done ew =>
                      edge_loop edgecolor edgewidth todo'
                        (lines ++ [(p0, p1)])
                        (colors ++ [dict_get ec edge default_edgecolor])
                        (widths ++ [dict_get ew edge default_edgewidth])
                  end
              end
          end
      end
  end.

(** The loop over the nodes (lines 111-120). *)
Fixpoint node_loop (nodecolor : option (gmap Z color)) (size : R)
    (todo : list Z) (circles : list Circle) : outcome (list Circle) :=
  match todo with
  | [] => Done circles
  | node :: todo' =>
      match node_xy !! node with
      | None => Fail KeyError
      | Some p =>
          match the_dict nodecolor with
          | Fail e => Fail e
          | Done nc =>
              node_loop nodecolor size todo'
                (circles ++ [mkCircle p size (dict_get nc node default_nodecolor)])
          end
      end
  end.

Definition lift {A} (r : outcome A) : M A :=
  match r with
  | Done a => ret a
  | Fail e => raise e
  end.

(** [self.plotter.axes.add_collection(collection)]. *)
Definition add_collection (c : collection) : M unit :=
  fun self =>
    (Done tt,
     mkNetworkArtist (show_nodes self) (show_edges self) (nodesize self)
       (sizepolicy self) (_nodecolor self) (_edgecolor self) (_edgewidth self)
       (_mpl_edge_collection self) (axes self ++ [c])).

Definition set_mpl_edge_collection (c : LineCollection) : M unit :=
  fun self =>
    (Done tt,
     mkNetworkArtist (show_nodes self) (show_edges self) (nodesize self)
       (sizepolicy self) (_nodecolor self) (_edgecolor self) (_edgewidth self)
       (Some c) (axes self)).

(** The first [if self.show_nodes:] block of [draw] (lines 86-103). *)
Definition draw_edges : M unit :=
  self <- get ;;
  r <- lift (edge_loop (_edgecolor self) (_edgewidth self) edges [] [] []) ;;
  let '(lines, colors, widths) := r in
  let c := mkLineCollection lines widths colors zorder_edges in
  add_collection (Lines c) ;;; set_mpl_edge_collection c.

(** The second [if self.show_nodes:] block of [draw] (lines 105-127). *)
Definition draw_nodes : M unit :=
  self <- get ;;
  size <- lift (if String.eqb (sizepolicy self) "absolute"
                then divide (nodesize self) dpi
                else divide (nodesize self) number_of_nodes) ;;
  circles <- lift (node_loop (_nodecolor self) size nodes []) ;;
  add_collection (Patches circles zorder_nodes).

(** [draw] (lines 82-127): both blocks are guarded by [show_nodes]. *)
Definition draw : M unit :=
  self <- get ;;
  (if show_nodes self then draw_edges else ret tt) ;;;
  self <- get ;;
  (if show_nodes self then draw_nodes else ret tt).

Definition redraw : M unit := raise NotImplementedError.

(** The plain attribute [show_edges]: [self.show_edges = value]. *)
Definition set_show_edges (value : bool) : M unit :=
  fun self =>
    (Done tt,
     mkNetworkArtist (show_nodes self) value (nodesize self) (sizepolicy self)
       (_nodecolor self) (_edgecolor self) (_edgewidth self)
       (_mpl_edge_collection self) (axes self)).

End WithNetwork.
End NetworkArtist.

(** ** The mesh accessors of [compas_blender] *)

(** [src/compas_blender/geometry/mesh.py]. The Blender mesh is external: it
    is given by the length of its collections and by the outcome of reading
    an item of a collection. *)
Module BlenderMesh.

(** [range(n)]. *)
Definition range (n : nat) : list Z := map Z.of_nat (seq 0 n).

(** [if not keys: keys = range(n)]: [None] and the empty list are both
    falsy. *)
Definition keys_or_all (keys : option (list Z)) (n : nat) : list Z :=
  match keys with
  | None | Some [] => range n
  | Some (key :: keys') => key :: keys'
  end.

(** [{key: f(key) for key in keys}]: the items are computed in order, and
    the first exception ends the comprehension. *)
Fixpoint dict_comprehension {V} (f : Z -> result V) (keys : list Z)
    (d : gmap Z V) : result (gmap Z V) :=
  match keys with
  | [] => Ok d
  | key :: keys' =>
      match f key with
      | Raise e => Raise e
      | Ok v => dict_comprehension f keys' (<[key := v]> d)
      end
  end.

Section WithGeometry.

(** [len(self.geometry.edges)] and [len(self.geometry.polygons)]. *)
Context (n_edges n_polygons : nat).
(** [self.geometry.edges[edge].vertices], as a sequence. *)
Context (edge_vertices : Z -> result (list Z)).
(** [list(self.geometry.vertices[i].co)]. *)
Context (vertex_co : Z -> result (list R)).
(** [list(self.geometry.polygons[face].vertices)],
    [list(self.geometry.polygons[face].normal)] and
    [self.geometry.polygons[face].area]. *)
Context (polygon_vertices : Z -> result (list Z)).
Context (polygon_normal : Z -> result (list R)).
Context (polygon_area : Z -> result R).
(** [compas.geometry.distance_point_point]. *)
Context (distance_point_point : list R -> list R -> result R).

Definition get_edge_vertex_indices (edge : Z) : result (list Z) :=
  edge_vertices edge.

Definition get_edges_vertex_indices (edges : option (list Z))
  : result (gmap Z (list Z)) :=
  dict_comprehension get_edge_vertex_indices (keys_or_all edges n_edges) ∅.

(** [edge_length] (lines 154-159): the two ends are unpacked from the
    vertices of the edge, then their coordinates are read in that order. *)
Definition edge_length (edge : Z) : result R :=
  match edge_vertices edge with
  | Raise e => Raise e
  | Ok [u; v] =>
      match vertex_co u with
      | Raise e => Raise e
      | Ok sp =>
          match vertex_co v with
          | Raise e => Raise e
          | Ok ep => distance_point_point sp ep
          end
      end
  | Ok _ => Raise (ValueError "values to unpack (expected 2)" [])
  end.

Definition edges_lengths (edges : option (list Z)) : result (gmap Z R) :=
  dict_comprehension edge_length (keys_or_all edges n_edges) ∅.

Definition get_face_vertex_indices (face : Z) : result (list Z) :=
  polygon_vertices face.

Definition get_faces_vertex_indices (faces : option (list Z))
  : result (gmap Z (list Z)) :=
  dict_comprehension get_face_vertex_indices (keys_or_all faces n_polygons) ∅.

Definition face_normal (face : Z) : result (list R) := polygon_normal face.

Definition faces_normals (faces : option (list Z)) : result (gmap Z (list R)) :=
  dict_comprehension face_normal (keys_or_all faces n_polygons) ∅.

Definition face_area (face : Z) : result R := polygon_area face.

Definition faces_areas (faces : option (list Z)) : result (gmap Z R) :=
  dict_comprehension face_area (keys_or_all faces n_polygons) ∅.

End WithGeometry.

(** What a method [plural] of the shape "one item of [singular] per key, all
    [n] keys when none is asked for" does:
    - the empty selection is the selection of everything;
    - on a selection where [singular] succeeds everywhere it returns the
      dict whose keys are the selected ones, each with its item;
    - otherwise it raises what [singular] raises on the first selected key
      where it fails. *)
Definition one_item_per_key {V} (n : nat) (singular : Z -> result V)
    (plural : option (list Z) -> result (gmap Z V)) : Prop :=
  plural (Some []) = plural None
  /\ (forall keys,
        (forall key, key ∈ keys_or_all keys n -> exists v, singular key = Ok v) ->
        exists d,
          plural keys = Ok d
          /\ forall key,
               (key ∈ keys_or_all keys n ->
                exists v, singular key = Ok v /\ d !! key = Some v)
               /\ (key ∉ keys_or_all keys n -> d !! key = None))
  /\ (forall (before : list Z) key (after : list Z) e,
        (forall key', key' ∈ before -> exists v, singular key' = Ok v) ->
        singular key = Raise e ->
        plural (Some (before ++ key :: after)%list) = Raise e).

End BlenderMesh.

(** ** More sample objects *)

(** The arc [Arc(worldXY, 2.0, math.pi, 0.0)], whose end angle is below its
    start angle. *)
Definition backward_arc : Arc.Arc WorldFrame.Frame :=
  Arc.mkArc (Arc.VFrame WorldFrame.worldXY) (Some 2) (Some PI) (Some 0).

(** A store with the single object [Quaternion(0, 0, 0, 0)]. *)
Definition store0 : gmap positive Quaternion.Quaternion :=
  {[ 1%positive := Quaternion.mkQuaternion 0 0 0 0 ]}.

(** A network of two nodes joined by one edge, and an artist on it as
    [__init__] leaves it by default, with no colour or width given. *)
Definition two_nodes : list Z := [0%Z; 1%Z].
Definition one_edge : list (Z * Z) := [(0%Z, 1%Z)].
Definition on_the_x_axis (node : Z) : R * R := (IZR node, 0).
Definition plain_artist : NetworkArtist.NetworkArtist :=
  NetworkArtist.mkNetworkArtist true true 5 "relative" (Some ∅) (Some ∅) (Some ∅)
    None [].

(** ** The domain of the stored fields *)

Section ArcInvariant.

Context {Frame : Type}.


(** The three float fields have been assigned. *)
Definition fully_set (a : Arc.Arc Frame) : Prop :=
  Arc._radius a <> None /\ Arc._start_angle a <> None /\ Arc._end_angle a <> None.

End ArcInvariant.

(** * Comparisons and constants *)

Lemma Rltb_true x y : Rltb x y = true <-> x < y.
Proof. unfold Rltb. destruct (Rlt_dec x y); split; auto; discriminate. Qed.

Lemma Rltb_false x y : Rltb x y = false <-> y <= x.
Proof.
  unfold Rltb. destruct (Rlt_dec x y); split; auto; try discriminate; lra.
Qed.

Lemma Rleb_true x y : Rleb x y = true <-> x <= y.
Proof. unfold Rleb. destruct (Rle_dec x y); split; auto; discriminate. Qed.

Lemma Rleb_false x y : Rleb x y = false <-> y < x.
Proof.
  unfold Rleb. destruct (Rle_dec x y); split; auto; try discriminate; lra.
Qed.

Lemma Reqb_true x y : Reqb x y = true <-> x = y.
Proof. unfold Reqb. destruct (Req_dec_T x y); split; auto; discriminate. Qed.

Lemma Reqb_refl x : Reqb x x = true.
Proof. now apply Reqb_true. Qed.

Lemma PI2_pos : 0 < PI2.
Proof. unfold PI2. pose proof PI_RGT_0. lra. Qed.

(** * Properties of [Arc] *)

Section ArcProperties.

Context {Frame : Type}.
Context (Frame_eq : Frame -> Arc.val Frame -> bool).

Implicit Types (a b : Arc.Arc Frame) (f : Arc.val Frame) (v r s e : R).

(** Unfolds the methods down to the monad's primitives. *)
Ltac run :=
  unfold Arc._verify, Arc.length, Arc.circumference, Arc.diameter, Arc.circle,
    Arc.angle, Arc.__getitem__, Arc.set_data, Arc.data, Arc.dict_getitem,
    Arc.set_radius, Arc.set_start_angle, Arc.set_end_angle, Arc.set_frame,
    Arc.radius, Arc.start_angle, Arc.end_angle, Arc.frame,
    Arc.bind, Arc.ret, Arc.raise, Arc.get, Arc.put; cbn.

Lemma bind_ok {A B} (m : Arc.M Frame A) (k : A -> Arc.M Frame B) a x a' :
  m a = (Ok x, a') -> Arc.bind m k a = k x a'.
Proof. intros H. unfold Arc.bind. now rewrite H. Qed.

Lemma bind_raise {A B} (m : Arc.M Frame A) (k : A -> Arc.M Frame B) a (ex : exn) a' :
  m a = (Raise ex, a') -> Arc.bind m k a = (Raise ex, a').
Proof. intros H. unfold Arc.bind. now rewrite H. Qed.

Lemma angle_in_range v : 0 <= v <= PI2 -> Rltb v 0 || Rltb PI2 v = false.
Proof.
  intros [H0 H1]. apply orb_false_intro; apply Rltb_false; assumption.
Qed.

Lemma angle_out_of_range v : v < 0 \/ PI2 < v -> Rltb v 0 || Rltb PI2 v = true.
Proof.
  intros [H | H]; apply orb_true_iff; [left | right]; now apply Rltb_true.
Qed.

Lemma set_radius_raises a v :
  v <= 0 -> Arc.set_radius (Arc.VFloat v) a = (Raise InvalidValue_radius, a).
Proof. intros H. run. apply Rleb_true in H. now rewrite H. Qed.

Lemma set_radius_stores a v :
  0 < v ->
  Arc.set_radius (Arc.VFloat v) a
  = (Ok tt, Arc.mkArc (Arc._frame a) (Some v) (Arc._start_angle a) (Arc._end_angle a)).
Proof. intros H. run. apply Rleb_false in H. now rewrite H. Qed.

Lemma set_start_angle_raises a v :
  v < 0 \/ PI2 < v ->
  Arc.set_start_angle (Arc.VFloat v) a = (Raise InvalidValue_start_angle, a).
Proof. intros H. run. now rewrite (angle_out_of_range v H). Qed.

Lemma set_start_angle_stores a v :
  0 <= v <= PI2 ->
  Arc.set_start_angle (Arc.VFloat v) a
  = (Ok tt, Arc.mkArc (Arc._frame a) (Arc._radius a) (Some v) (Arc._end_angle a)).
Proof. intros H. run. now rewrite (angle_in_range v H). Qed.

Lemma set_end_angle_raises a v :
  v < 0 \/ PI2 < v ->
  Arc.set_end_angle (Arc.VFloat v) a = (Raise InvalidValue_end_angle, a).
Proof. intros H. run. now rewrite (angle_out_of_range v H). Qed.

Lemma set_end_angle_stores a v :
  0 <= v <= PI2 ->
  Arc.set_end_angle (Arc.VFloat v) a
  = (Ok tt, Arc.mkArc (Arc._frame a) (Arc._radius a) (Arc._start_angle a) (Some v)).
Proof. intros H. run. now rewrite (angle_in_range v H). Qed.

(** C2. For every real [v]: assigning [radius = v] raises the
    invalid-value [ValueError] exactly when [v <= 0], leaving the arc as it
    was, and otherwise stores [v]; assigning [start_angle = v] or
    [end_angle = v] raises exactly when [v < 0] or [v > 2 pi], and otherwise
    stores [v]; in particular [0] and [2 pi] are accepted and stored. *)
Theorem setters_validate a v :
  (Arc.raises (Arc.set_radius (Arc.VFloat v) a) InvalidValue_radius <-> v <= 0)
  /\ (v <= 0 -> Arc.set_radius (Arc.VFloat v) a = (Raise InvalidValue_radius, a))
  /\ (0 < v ->
      Arc.set_radius (Arc.VFloat v) a
      = (Ok tt, Arc.mkArc (Arc._frame a) (Some v) (Arc._start_angle a) (Arc._end_angle a)))
  /\ (Arc.raises (Arc.set_start_angle (Arc.VFloat v) a) InvalidValue_start_angle
      <-> v < 0 \/ PI2 < v)
  /\ (0 <= v <= PI2 ->
      Arc.set_start_angle (Arc.VFloat v) a
      = (Ok tt, Arc.mkArc (Arc._frame a) (Arc._radius a) (Some v) (Arc._end_angle a)))
  /\ (Arc.raises (Arc.set_end_angle (Arc.VFloat v) a) InvalidValue_end_angle
      <-> v < 0 \/ PI2 < v)
  /\ (0 <= v <= PI2 ->
      Arc.set_end_angle (Arc.VFloat v) a
      = (Ok tt, Arc.mkArc (Arc._frame a) (Arc._radius a) (Arc._start_angle a) (Some v)))
  /\ Arc._start_angle (snd (Arc.set_start_angle (Arc.VFloat 0) a)) = Some 0
  /\ Arc._start_angle (snd (Arc.set_start_angle (Arc.VFloat PI2) a)) = Some PI2
  /\ Arc._end_angle (snd (Arc.set_end_angle (Arc.VFloat 0) a)) = Some 0
  /\ Arc._end_angle (snd (Arc.set_end_angle (Arc.VFloat PI2) a)) = Some PI2.
Proof.
  pose proof PI2_pos as Hpi.
  repeat split.
  - intros H. destruct (Rle_dec v 0) as [Hle | Hgt]; [assumption |].
    unfold Arc.raises in H. rewrite set_radius_stores in H by lra. discriminate.
  - intros H. unfold Arc.raises. now rewrite set_radius_raises.
  - apply set_radius_raises.
  - apply set_radius_stores.
  - intros H. destruct (Rlt_dec v 0) as [Hlt | Hge]; [now left |].
    destruct (Rlt_dec PI2 v) as [Hlt' | Hge']; [now right |].
    unfold Arc.raises in H. rewrite set_start_angle_stores in H by lra. discriminate.
  - intros H. unfold Arc.raises. now rewrite set_start_angle_raises.
  - apply set_start_angle_stores.
  - intros H. destruct (Rlt_dec v 0) as [Hlt | Hge]; [now left |].
    destruct (Rlt_dec PI2 v) as [Hlt' | Hge']; [now right |].
    unfold Arc.raises in H. rewrite set_end_angle_stores in H by lra. discriminate.
  - intros H. unfold Arc.raises. now rewrite set_end_angle_raises.
  - apply set_end_angle_stores.
  - rewrite set_start_angle_stores by lra. reflexivity.
  - rewrite set_start_angle_stores by lra. reflexivity.
  - rewrite set_end_angle_stores by lra. reflexivity.
  - rewrite set_end_angle_stores by lra. reflexivity.
Qed.

(** C3. Reading [radius] or [end_angle] before it was assigned raises the
    not-set [ValueError] and leaves the arc as it was; reading [start_angle]
    before it was assigned raises nothing, returns [0.0] and stores [0.0];
    a getter of an assigned field returns the stored value and changes
    nothing. *)
Theorem getters_unset_and_set a :
  (Arc._radius a = None -> Arc.radius a = (Raise NotSet_radius, a))
  /\ (Arc._end_angle a = None -> Arc.end_angle a = (Raise NotSet_end_angle, a))
  /\ (Arc._start_angle a = None ->
      exists a', Arc.start_angle a = (Ok 0, a')
                 /\ Arc._start_angle a' = Some 0
                 /\ Arc._frame a' = Arc._frame a
                 /\ Arc._radius a' = Arc._radius a
                 /\ Arc._end_angle a' = Arc._end_angle a)
  /\ (forall r, Arc._radius a = Some r -> Arc.radius a = (Ok r, a))
  /\ (forall s, Arc._start_angle a = Some s -> Arc.start_angle a = (Ok s, a))
  /\ (forall e, Arc._end_angle a = Some e -> Arc.end_angle a = (Ok e, a))
  /\ Arc.frame a = (Ok (Arc._frame a), a).
Proof.
  repeat split; try (intros ? H || intros H); run; try rewrite H; try reflexivity.
  eexists. repeat split.
Qed.

(** The getters on an arc whose four fields are set. *)
Lemma angle_set f r s e :
  Arc.angle (Arc.mkArc f (Some r) (Some s) (Some e))
  = (Ok (e - s), Arc.mkArc f (Some r) (Some s) (Some e)).
Proof. reflexivity. Qed.

(** [_verify] on an arc whose fields are set: it raises exactly when the
    sweep is negative or exceeds [2 pi]. *)
Lemma verify_spec f r s e :
  let a := Arc.mkArc f (Some r) (Some s) (Some e) in
  (e - s < 0 \/ PI2 < e - s -> Arc._verify a = (Raise (InvalidGeometry (e - s)), a))
  /\ (0 <= e - s <= PI2 -> Arc._verify a = (Ok tt, a)).
Proof.
  cbn zeta. split.
  - intros H. run. destruct (Rltb (e - s) 0) eqn:E0; [reflexivity |].
    destruct H as [H | H]; [apply Rltb_true in H; congruence |].
    apply Rltb_true in H. cbn. now rewrite H.
  - intros [H0 H1]. run. apply Rltb_false in H0, H1. rewrite H0. cbn. now rewrite H1.
Qed.

(** C6. On an arc of radius [r > 0] whose angles are set, the radius of
    [circle] is [r], [diameter] is [2 r], [circumference] is [2 pi r],
    [angle] is [end_angle - start_angle] and [length] is [radius * angle];
    none of these reads changes the arc. *)
Theorem derived_properties f r s e :
  0 < r ->
  let a := Arc.mkArc f (Some r) (Some s) (Some e) in
  Arc.circle a = (Ok (Arc.mkCircle f r), a)
  /\ Arc.Circle_radius (Arc.mkCircle f r) = r
  /\ Arc.diameter a = (Ok (2 * r), a)
  /\ Arc.circumference a = (Ok (2 * PI * r), a)
  /\ Arc.angle a = (Ok (e - s), a)
  /\ Arc.length a = (Ok (r * (e - s)), a).
Proof.
  intros _. cbn zeta. repeat split.
  run. do 2 f_equal. ring.
Qed.

(** The constructor on valid arguments: both runs of [__init__] succeed and
    the four arguments are stored. *)
Lemma init_valid f r s e a :
  0 < r -> 0 <= s <= PI2 -> 0 <= e <= PI2 ->
  Arc.__init__ f (Arc.VFloat r) (Arc.VFloat s) (Arc.VFloat e) a
  = (Ok tt, Arc.mkArc f (Some r) (Some s) (Some e)).
Proof.
  intros Hr Hs He. unfold Arc.__init__, Arc.Curve___init__.
  erewrite bind_ok by reflexivity.
  erewrite bind_ok by reflexivity.
  erewrite bind_ok by (apply set_radius_stores; assumption).
  erewrite bind_ok by (apply set_start_angle_stores; assumption).
  rewrite set_end_angle_stores by assumption. reflexivity.
Qed.

Lemma new_valid f r s e :
  0 < r -> 0 <= s <= PI2 -> 0 <= e <= PI2 ->
  Arc.new f (Arc.VFloat r) (Arc.VFloat s) (Arc.VFloat e)
  = Ok (Arc.mkArc f (Some r) (Some s) (Some e)).
Proof.
  intros Hr Hs He. unfold Arc.new, Arc.__new__.
  rewrite init_valid by assumption. now rewrite init_valid by assumption.
Qed.

(** C7. For a circle [c] of positive radius and angles [s], [e] in
    [[0, 2 pi]], [from_circle c s e] returns an arc whose frame and radius
    are those of [c] and whose angles are [s] and [e]; the [circle] of that
    arc is [c]. *)
Theorem from_circle_preserves (c : Arc.Circle Frame) s e :
  0 < Arc.Circle_radius c -> 0 <= s <= PI2 -> 0 <= e <= PI2 ->
  exists a,
    Arc.from_circle c (Arc.VFloat s) (Arc.VFloat e) = Ok a
    /\ Arc._frame a = Arc.Circle_frame c
    /\ Arc._radius a = Some (Arc.Circle_radius c)
    /\ Arc._start_angle a = Some s
    /\ Arc._end_angle a = Some e
    /\ Arc.circle a = (Ok c, a).
Proof.
  intros Hr Hs He. eexists. split.
  - unfold Arc.from_circle. apply new_valid; assumption.
  - repeat split. destruct c; reflexivity.
Qed.

(** *** Equality *)

Lemma py_eq_float x y :
  Arc.py_eq Frame_eq (Arc.VFloat x) (Arc.VFloat y) = true <-> x = y.
Proof. apply Reqb_true. Qed.

Lemma try_components_arc (fv : Arc.val Frame) r s e :
  Arc.try_components (Arc.PArc (Arc.mkArc fv (Some r) (Some s) (Some e)))
  = Ok (fv, Arc.VFloat r, Arc.VFloat s, Arc.VFloat e).
Proof. reflexivity. Qed.

Lemma try_components_list4 (v0 v1 v2 v3 : Arc.val Frame) :
  Arc.try_components (Arc.PList [v0; v1; v2; v3]) = Ok (v0, v1, v2, v3).
Proof. reflexivity. Qed.

Lemma try_components_short_list (l : list (Arc.val Frame)) :
  (List.length l < 4)%nat -> Arc.try_components (Arc.PList l) = Raise IndexError.
Proof.
  intros H.
  destruct l as [| v0 [| v1 [| v2 [| v3 l]]]]; try reflexivity.
  cbn in H. lia.
Qed.

(** [__eq__] once the four components of the right operand are known: the
    conjunction of the four comparisons, and the receiver is not changed. *)
Lemma eq_of_components (fv : Arc.val Frame) r s e o
    (v0 v1 v2 v3 : Arc.val Frame) :
  let a := Arc.mkArc fv (Some r) (Some s) (Some e) in
  Arc.try_components o = Ok (v0, v1, v2, v3) ->
  Arc.__eq__ Frame_eq o a
  = (Ok (Arc.py_eq Frame_eq fv v0
         && Arc.py_eq Frame_eq (Arc.VFloat r) v1
         && Arc.py_eq Frame_eq (Arc.VFloat s) v2
         && Arc.py_eq Frame_eq (Arc.VFloat e) v3), a).
Proof.
  cbn zeta. intros H. unfold Arc.__eq__. rewrite H.
  unfold Arc.and_then, Arc.frame, Arc.radius, Arc.start_angle, Arc.end_angle,
    Arc.bind, Arc.ret, Arc.get. cbn -[Arc.py_eq].
  destruct (Arc.py_eq Frame_eq fv v0); [| reflexivity]. cbn -[Arc.py_eq].
  destruct (Arc.py_eq Frame_eq (Arc.VFloat r) v1); [| reflexivity]. cbn -[Arc.py_eq].
  destruct (Arc.py_eq Frame_eq (Arc.VFloat s) v2); reflexivity.
Qed.

Lemma eq_of_failure a o ex :
  Arc.try_components o = Raise ex -> Arc.__eq__ Frame_eq o a = (Ok false, a).
Proof. intros H. unfold Arc.__eq__. now rewrite H. Qed.

(** C4. For two arcs [A] and [B] whose four fields are set, [A == B]
    returns [True] exactly when the four components compare equal
    ([==]) one by one; and for every object from which the four indexed
    components cannot be read (reading one of them raises), [A == o]
    returns [False] and raises nothing. Such objects are [None], a float,
    a list of fewer than four items, an arc whose radius or end angle was
    never assigned. *)
Theorem eq_componentwise (fa fb : Frame) ra sa ea rb sb eb :
  let A := Arc.mkArc (Arc.VFrame fa) (Some ra) (Some sa) (Some ea) in
  let B := Arc.mkArc (Arc.VFrame fb) (Some rb) (Some sb) (Some eb) in
  (exists res,
      Arc.__eq__ Frame_eq (Arc.PArc B) A = (Ok res, A)
      /\ (res = true <->
          Arc.py_eq Frame_eq (Arc.VFrame fa) (Arc.VFrame fb) = true
          /\ Arc.py_eq Frame_eq (Arc.VFloat ra) (Arc.VFloat rb) = true
          /\ Arc.py_eq Frame_eq (Arc.VFloat sa) (Arc.VFloat sb) = true
          /\ Arc.py_eq Frame_eq (Arc.VFloat ea) (Arc.VFloat eb) = true)
      /\ (res = true <->
          Frame_eq fa (Arc.VFrame fb) = true /\ ra = rb /\ sa = sb /\ ea = eb))
  /\ (forall o ex,
        Arc.try_components o = Raise ex ->
        Arc.__eq__ Frame_eq o A = (Ok false, A))
  /\ Arc.__eq__ Frame_eq Arc.PNone A = (Ok false, A)
  /\ (forall x, Arc.__eq__ Frame_eq (Arc.PFloat x) A = (Ok false, A))
  /\ (forall l, (List.length l < 4)%nat ->
        Arc.__eq__ Frame_eq (Arc.PList l) A = (Ok false, A))
  /\ (forall fv (os oe : option R),
        Arc.__eq__ Frame_eq (Arc.PArc (Arc.mkArc fv None os oe)) A = (Ok false, A))
  /\ (forall fv (or os : option R),
        Arc.__eq__ Frame_eq (Arc.PArc (Arc.mkArc fv or os None)) A = (Ok false, A)).
Proof.
  cbn zeta. split; [| repeat split].
  - eexists. split; [apply eq_of_components, try_components_arc |].
    rewrite !andb_true_iff. split; [tauto |].
    cbn [Arc.py_eq]. rewrite !Reqb_true. tauto.
  - intros o ex. apply eq_of_failure.
  - intros l H. eapply eq_of_failure, try_components_short_list, H.
  - intros fv [r |] os; [destruct os |]; reflexivity.
Qed.

(** C10. Equality is duck-typed: for an arc [A] whose four fields are set
    and any object [o] (an arc or not) whose items at the positions 0, 1, 2
    and 3 can be read and compare equal to the frame, radius, start angle
    and end angle of [A], [A == o] returns [True]. *)
Theorem eq_duck_typed (fa : Frame) r s e (o : Arc.pyobj Frame)
    (v0 v1 v2 v3 : Arc.val Frame) :
  let A := Arc.mkArc (Arc.VFrame fa) (Some r) (Some s) (Some e) in
  Arc.try_components o = Ok (v0, v1, v2, v3) ->
  Arc.py_eq Frame_eq (Arc.VFrame fa) v0 = true ->
  Arc.py_eq Frame_eq (Arc.VFloat r) v1 = true ->
  Arc.py_eq Frame_eq (Arc.VFloat s) v2 = true ->
  Arc.py_eq Frame_eq (Arc.VFloat e) v3 = true ->
  Arc.__eq__ Frame_eq o A = (Ok true, A).
Proof.
  cbn zeta. intros H H0 H1 H2 H3.
  rewrite (eq_of_components _ _ _ _ _ _ _ _ _ H).
  now rewrite H0, H1, H2, H3.
Qed.

(** The plain list of the four components of an arc is equal to the arc,
    as soon as the frame is equal to itself. *)
Lemma eq_plain_list (fa : Frame) r s e :
  Frame_eq fa (Arc.VFrame fa) = true ->
  Arc.__eq__ Frame_eq
    (Arc.PList [Arc.VFrame fa; Arc.VFloat r; Arc.VFloat s; Arc.VFloat e])
    (Arc.mkArc (Arc.VFrame fa) (Some r) (Some s) (Some e))
  = (Ok true, Arc.mkArc (Arc.VFrame fa) (Some r) (Some s) (Some e)).
Proof.
  intros H. rewrite (eq_of_components _ _ _ _ _ _ _ _ _ (try_components_list4 _ _ _ _)).
  cbn [Arc.py_eq]. now rewrite H, !Reqb_refl.
Qed.

(** An arc whose fields are set is equal to an arc with the same fields,
    as soon as the frame is equal to itself. *)
Lemma eq_arc_same_fields (fa : Frame) r s e :
  Frame_eq fa (Arc.VFrame fa) = true ->
  Arc.__eq__ Frame_eq
    (Arc.PArc (Arc.mkArc (Arc.VFrame fa) (Some r) (Some s) (Some e)))
    (Arc.mkArc (Arc.VFrame fa) (Some r) (Some s) (Some e))
  = (Ok true, Arc.mkArc (Arc.VFrame fa) (Some r) (Some s) (Some e)).
Proof.
  intros H. rewrite (eq_of_components _ _ _ _ _ _ _ _ _ (try_components_arc _ _ _ _)).
  cbn [Arc.py_eq]. now rewrite H, !Reqb_refl.
Qed.

(** *** Data *)

Lemma data_set (fv : Arc.val Frame) r s e :
  let a := Arc.mkArc fv (Some r) (Some s) (Some e) in
  Arc.data a
  = (Ok (<["frame" := fv]>
         (<["radius" := Arc.VFloat r]>
         (<["start_angle" := Arc.VFloat s]>
         (<["end_angle" := Arc.VFloat e]> ∅)))), a).
Proof. reflexivity. Qed.

Lemma dict_getitem_some (d : gmap string (Arc.val Frame)) k x a :
  d !! k = Some x -> Arc.dict_getitem d k a = (Ok x, a).
Proof. intros H. unfold Arc.dict_getitem. now rewrite H. Qed.

(** Assigning a record of four valid fields to [data] stores them. *)
Lemma set_data_valid (d : gmap string (Arc.val Frame)) (fv : Arc.val Frame) r s e b :
  d !! "frame" = Some fv ->
  d !! "radius" = Some (Arc.VFloat r) ->
  d !! "start_angle" = Some (Arc.VFloat s) ->
  d !! "end_angle" = Some (Arc.VFloat e) ->
  0 < r -> 0 <= s <= PI2 -> 0 <= e <= PI2 ->
  Arc.set_data d b = (Ok tt, Arc.mkArc fv (Some r) (Some s) (Some e)).
Proof.
  intros Hf Hr Hs He Hr0 Hs0 He0. unfold Arc.set_data.
  erewrite bind_ok; cycle 1.
  { erewrite bind_ok by (apply dict_getitem_some, Hf). reflexivity. }
  erewrite bind_ok; cycle 1.
  { erewrite bind_ok by (apply dict_getitem_some, Hr).
    apply set_radius_stores, Hr0. }
  erewrite bind_ok; cycle 1.
  { erewrite bind_ok by (apply dict_getitem_some, Hs).
    apply set_start_angle_stores, Hs0. }
  erewrite bind_ok by (apply dict_getitem_some, He).
  rewrite set_end_angle_stores by assumption. reflexivity.
Qed.

(** C5. For an arc whose frame, radius ([> 0]) and angles (in [[0, 2 pi]])
    are set, [data] is a record with exactly the four fields [frame],
    [radius], [start_angle] and [end_angle]; assigning that record to the
    [data] of any arc succeeds and makes that arc equal ([==], in both
    directions) to the original, the frame being equal to itself. *)
Theorem data_round_trip (fa : Frame) r s e :
  0 < r -> 0 <= s <= PI2 -> 0 <= e <= PI2 ->
  Frame_eq fa (Arc.VFrame fa) = true ->
  let a := Arc.mkArc (Arc.VFrame fa) (Some r) (Some s) (Some e) in
  exists d : gmap string (Arc.val Frame),
    Arc.data a = (Ok d, a)
    /\ dom d = {[ "frame"; "radius"; "start_angle"; "end_angle" ]}
    /\ forall b, exists b',
         Arc.set_data d b = (Ok tt, b')
         /\ b' = a
         /\ Arc.__eq__ Frame_eq (Arc.PArc a) b' = (Ok true, b')
         /\ Arc.__eq__ Frame_eq (Arc.PArc b') a = (Ok true, a).
Proof.
  intros Hr Hs He Hf. cbn zeta. eexists. split; [apply data_set |]. split.
  - rewrite !dom_insert_L, dom_empty_L. set_solver.
  - intros b. eexists. split.
    + apply set_data_valid with (fv := Arc.VFrame fa); try assumption;
        by simplify_map_eq.
    + split; [reflexivity |].
      assert (Heq : Arc.__eq__ Frame_eq
                (Arc.PArc (Arc.mkArc (Arc.VFrame fa) (Some r) (Some s) (Some e)))
                (Arc.mkArc (Arc.VFrame fa) (Some r) (Some s) (Some e))
              = (Ok true, Arc.mkArc (Arc.VFrame fa) (Some r) (Some s) (Some e))).
      { apply (eq_arc_same_fields fa r s e). exact Hf. }
      split; exact Heq.
Qed.

End ArcProperties.

(** * Properties of [Quaternion] *)

Section QuaternionProperties.

(** The algebra is arbitrary in this section. *)
Context (quaternion_multiply : list R -> list R -> result (list R)).
Context (quaternion_unitize quaternion_canonize : list R -> result (list R)).

Implicit Types (h : gmap positive Quaternion.Quaternion).
Implicit Types (l k : positive) (q : Quaternion.Quaternion).

Lemma iter_live h l q :
  h !! l = Some q -> Quaternion.__iter__ l h = Some (Ok (Quaternion.components q), h).
Proof.
  intros H. unfold Quaternion.__iter__, Quaternion.bind, Quaternion.deref.
  now rewrite H.
Qed.

Lemma fresh_not_live h : h !! fresh (dom h) = None.
Proof. apply not_elem_of_dom, is_fresh. Qed.

(** A method of the shape "read the components, apply [g], build a
    quaternion from the result" returns a fresh object and writes nothing
    else. *)
Lemma returns_new (g : list R -> result (list R)) h l q a b c d :
  h !! l = Some q ->
  g (Quaternion.components q) = Ok [a; b; c; d] ->
  Quaternion.unitized g l h
  = Some (Ok (fresh (dom h)),
          <[fresh (dom h) := Quaternion.mkQuaternion a b c d]> h).
Proof.
  intros H Hg. unfold Quaternion.unitized, Quaternion.bind.
  rewrite (iter_live h l q H). unfold Quaternion.components in Hg |- *.
  rewrite Hg. reflexivity.
Qed.

(** A method of the shape "read the components, apply [g], assign the
    result to the four attributes" overwrites the receiver and returns
    [None]. *)
Lemma updates_in_place (g : list R -> result (list R)) h l q a b c d :
  h !! l = Some q ->
  g (Quaternion.components q) = Ok [a; b; c; d] ->
  Quaternion.unitize g l h
  = Some (Ok tt, <[l := Quaternion.mkQuaternion a b c d]> h).
Proof.
  intros H Hg. unfold Quaternion.unitize, Quaternion.bind.
  rewrite (iter_live h l q H). unfold Quaternion.components in Hg |- *.
  rewrite Hg. cbn. unfold Quaternion.assign. now rewrite H.
Qed.

(** If the algebra raises, the method raises the same and the store is
    untouched. *)
Lemma raise_keeps_store (g : list R -> result (list R)) h l q ex :
  h !! l = Some q ->
  g (Quaternion.components q) = Raise ex ->
  Quaternion.unitized g l h = Some (Raise ex, h)
  /\ Quaternion.unitize g l h = Some (Raise ex, h).
Proof.
  intros H Hg.
  unfold Quaternion.unitized, Quaternion.unitize, Quaternion.bind.
  rewrite (iter_live h l q H). unfold Quaternion.components in Hg |- *.
  now rewrite Hg.
Qed.

(** The value-returning method and the in-place method built on the same
    function [g], on a live object [l]: the first returns a new object
    holding the result and leaves every other object as it was, the second
    returns [None] and leaves the result in [l]. *)
Lemma value_and_in_place (g : list R -> result (list R)) h l q a b c d :
  h !! l = Some q ->
  g (Quaternion.components q) = Ok [a; b; c; d] ->
  exists l' h1 h2,
    Quaternion.unitized g l h = Some (Ok l', h1)
    /\ (l' ∉ dom h)
    /\ h1 !! l' = Some (Quaternion.mkQuaternion a b c d)
    /\ h1 !! l = Some q
    /\ (forall k, k <> l' -> h1 !! k = h !! k)
    /\ Quaternion.unitize g l h = Some (Ok tt, h2)
    /\ h2 !! l = h1 !! l'
    /\ (forall k, k <> l -> h2 !! k = h !! k).
Proof.
  intros H Hg. pose proof (fresh_not_live h) as Hfresh.
  exists (fresh (dom h)), (<[fresh (dom h) := Quaternion.mkQuaternion a b c d]> h),
    (<[l := Quaternion.mkQuaternion a b c d]> h).
  split; [now apply returns_new with (q := q) |].
  split; [apply is_fresh |].
  split; [apply lookup_insert_eq |].
  split; [rewrite lookup_insert_ne; [exact H | congruence] |].
  split; [intros k Hk; now apply lookup_insert_ne |].
  split; [now apply updates_in_place with (q := q) |].
  split; [now rewrite !lookup_insert_eq |].
  intros k Hk. now apply lookup_insert_ne.
Qed.

Lemma mul_returns_new h l1 l2 q1 q2 a b c d :
  h !! l1 = Some q1 -> h !! l2 = Some q2 ->
  quaternion_multiply (Quaternion.components q1) (Quaternion.components q2) = Ok [a; b; c; d] ->
  Quaternion.__mul__ quaternion_multiply l1 l2 h
  = Some (Ok (fresh (dom h)),
          <[fresh (dom h) := Quaternion.mkQuaternion a b c d]> h).
Proof.
  intros H1 H2 Hm. unfold Quaternion.__mul__.
  unfold Quaternion.bind at 1. rewrite (iter_live h l1 q1 H1).
  unfold Quaternion.bind at 1. rewrite (iter_live h l2 q2 H2).
  unfold Quaternion.bind. rewrite Hm. reflexivity.
Qed.

(** C8. For a quaternion [q] on which the algebra succeeds (nonzero norm,
    for the normalisation): [unitized] and [canonized] return a new object
    and leave the components of [q], and every other object, unchanged;
    [unitize()] and [canonize()] return [None], and afterwards the
    components of [q] are those of the object that [unitized] (respectively
    [canonized]) returns from the same state; [q1 * q2] returns a new
    object and leaves both operands unchanged. *)
Theorem mutating_and_non_mutating h l q :
  h !! l = Some q ->
  (forall a b c d,
      quaternion_unitize (Quaternion.components q) = Ok [a; b; c; d] ->
      exists l' h1 h2,
        Quaternion.unitized quaternion_unitize l h = Some (Ok l', h1)
        /\ (l' ∉ dom h)
        /\ h1 !! l' = Some (Quaternion.mkQuaternion a b c d)
        /\ h1 !! l = Some q
        /\ (forall k, k <> l' -> h1 !! k = h !! k)
        /\ Quaternion.unitize quaternion_unitize l h = Some (Ok tt, h2)
        /\ h2 !! l = h1 !! l'
        /\ (forall k, k <> l -> h2 !! k = h !! k))
  /\ (forall a b c d,
      quaternion_canonize (Quaternion.components q) = Ok [a; b; c; d] ->
      exists l' h1 h2,
        Quaternion.canonized quaternion_canonize l h = Some (Ok l', h1)
        /\ (l' ∉ dom h)
        /\ h1 !! l' = Some (Quaternion.mkQuaternion a b c d)
        /\ h1 !! l = Some q
        /\ (forall k, k <> l' -> h1 !! k = h !! k)
        /\ Quaternion.canonize quaternion_canonize l h = Some (Ok tt, h2)
        /\ h2 !! l = h1 !! l'
        /\ (forall k, k <> l -> h2 !! k = h !! k))
  /\ (forall l2 q2 a b c d,
      h !! l2 = Some q2 ->
      quaternion_multiply (Quaternion.components q) (Quaternion.components q2)
      = Ok [a; b; c; d] ->
      exists l' h1,
        Quaternion.__mul__ quaternion_multiply l l2 h = Some (Ok l', h1)
        /\ (l' ∉ dom h)
        /\ h1 !! l' = Some (Quaternion.mkQuaternion a b c d)
        /\ h1 !! l = Some q
        /\ h1 !! l2 = Some q2
        /\ (forall k, k <> l' -> h1 !! k = h !! k)).
Proof.
  intros H. split; [| split].
  - intros a b c d Hg. now apply value_and_in_place.
  - intros a b c d Hg.
    exact (value_and_in_place quaternion_canonize h l q a b c d H Hg).
  - intros l2 q2 a b c d H2 Hm. pose proof (fresh_not_live h) as Hfresh.
    exists (fresh (dom h)),
      (<[fresh (dom h) := Quaternion.mkQuaternion a b c d]> h).
    split; [now apply mul_returns_new with (q1 := q) (q2 := q2) |].
    split; [apply is_fresh |].
    split; [apply lookup_insert_eq |].
    split; [rewrite lookup_insert_ne; [exact H | congruence] |].
    split; [rewrite lookup_insert_ne; [exact H2 | congruence] |].
    intros k Hk. now apply lookup_insert_ne.
Qed.

End QuaternionProperties.

(** * The quaternion algebra of the specification *)

Section Conjugate.

Implicit Types (h : gmap positive Quaternion.Quaternion).
Implicit Types (l : positive) (q : Quaternion.Quaternion).

Lemma conjugate_components q :
  transformations.quaternion_conjugate (Quaternion.components q)
  = Ok [Quaternion.w q; - Quaternion.x q; - Quaternion.y q; - Quaternion.z q].
Proof. reflexivity. Qed.

Lemma conjugate_returns_new h l q :
  h !! l = Some q ->
  let qc := Quaternion.mkQuaternion (Quaternion.w q) (- Quaternion.x q)
              (- Quaternion.y q) (- Quaternion.z q) in
  Quaternion.conjugate transformations.quaternion_conjugate l h
  = Some (Ok (fresh (dom h)), <[fresh (dom h) := qc]> h).
Proof.
  intros H.
  exact (returns_new transformations.quaternion_conjugate h l q _ _ _ _ H
           (conjugate_components q)).
Qed.

(** C9. For a quaternion [q = (w, x, y, z)], [q.conjugate] is a new object
    with components [(w, -x, -y, -z)], [q] is left unchanged, and
    [q.conjugate.conjugate] is again a new object, with the four components
    of [q]. *)
Theorem conjugate_round_trip h l q :
  h !! l = Some q ->
  exists l1 h1,
    Quaternion.conjugate transformations.quaternion_conjugate l h = Some (Ok l1, h1)
    /\ (l1 ∉ dom h)
    /\ h1 !! l1
       = Some (Quaternion.mkQuaternion (Quaternion.w q) (- Quaternion.x q)
                 (- Quaternion.y q) (- Quaternion.z q))
    /\ h1 !! l = Some q
    /\ exists l2 h2,
         Quaternion.conjugate transformations.quaternion_conjugate l1 h1
         = Some (Ok l2, h2)
         /\ (l2 ∉ dom h1)
         /\ h2 !! l2 = Some q
         /\ h2 !! l = Some q.
Proof.
  intros H.
  set (qc := Quaternion.mkQuaternion (Quaternion.w q) (- Quaternion.x q)
               (- Quaternion.y q) (- Quaternion.z q)).
  set (l1 := fresh (dom h)). set (h1 := <[l1 := qc]> h).
  assert (Hl1 : h !! l1 = None) by apply fresh_not_live.
  assert (H1 : h1 !! l1 = Some qc) by apply lookup_insert_eq.
  assert (H1l : h1 !! l = Some q).
  { unfold h1. rewrite lookup_insert_ne; [exact H | congruence]. }
  exists l1, h1. split; [now apply conjugate_returns_new |].
  split; [apply is_fresh |]. split; [exact H1 |]. split; [exact H1l |].
  set (l2 := fresh (dom h1)).
  assert (Hl2 : h1 !! l2 = None) by apply fresh_not_live.
  exists l2, (<[l2 := Quaternion.mkQuaternion (Quaternion.w qc)
                     (- Quaternion.x qc) (- Quaternion.y qc) (- Quaternion.z qc)]> h1).
  split; [now apply conjugate_returns_new |].
  split; [apply is_fresh |].
  split.
  - rewrite lookup_insert_eq. f_equal. destruct q as [qw qx qy qz]. cbn.
    now rewrite !Ropp_involutive.
  - rewrite lookup_insert_ne; [exact H1l | congruence].
Qed.

End Conjugate.

(** * Instances *)

Lemma WorldFrame_eq_refl (f : WorldFrame.Frame) :
  WorldFrame.Frame_eq f (Arc.VFrame f) = true.
Proof.
  destruct f as [[[p1 p2] p3] [[x1 x2] x3] [[y1 y2] y3]]. cbn.
  now rewrite !Reqb_refl.
Qed.

(** C1. [_verify] is meant to reject a sweep outside [(0, 2 pi]], and its
    message asks for [0 < angle]; yet the arc built by
    [Arc(worldXY, 1.0, 0.0, 0.0)], whose sweep is [0], passes [_verify]
    without an error. *)
Theorem verify_accepts_zero_sweep :
  Arc.new (Arc.VFrame WorldFrame.worldXY) (Arc.VFloat 1) (Arc.VFloat 0) (Arc.VFloat 0)
  = Ok degenerate_arc
  /\ Arc.angle degenerate_arc = (Ok (0 - 0), degenerate_arc)
  /\ ~ (0 < 0 - 0 <= PI2)
  /\ Arc._verify degenerate_arc = (Ok tt, degenerate_arc).
Proof.
  pose proof PI2_pos as Hpi.
  split; [apply new_valid; lra |].
  split; [reflexivity |].
  split; [lra |].
  apply (verify_spec (Arc.VFrame WorldFrame.worldXY) 1 0 0). lra.
Qed.

Lemma PI_in_range : 0 <= PI <= PI2.
Proof. unfold PI2. pose proof PI_RGT_0. lra. Qed.

Lemma zero_in_range : 0 <= 0 <= PI2.
Proof. pose proof PI2_pos. lra. Qed.

Lemma Reqb_false x y : Reqb x y = false <-> x <> y.
Proof.
  unfold Reqb. destruct (Req_dec_T x y); split; auto; try discriminate.
  intros H. contradiction.
Qed.

(** [Arc(worldXY, 2.0, 0.0, pi)]: the derived properties. *)
Lemma derived_properties_witness :
  Arc.diameter half_circle = (Ok (2 * 2), half_circle)
  /\ Arc.circumference half_circle = (Ok (2 * PI * 2), half_circle)
  /\ Arc.length half_circle = (Ok (2 * (PI - 0)), half_circle).
Proof.
  pose proof (derived_properties (Arc.VFrame WorldFrame.worldXY) 2 0 PI
                ltac:(lra)) as (_ & _ & Hd & Hc & _ & Hl).
  exact (conj Hd (conj Hc Hl)).
Defined.

(** [Arc.from_circle(Circle(worldXY, 2.0), 0.0, pi)]. *)
Lemma from_circle_preserves_witness :
  exists a,
    Arc.from_circle circle_of_radius_2 (Arc.VFloat 0) (Arc.VFloat PI) = Ok a
    /\ Arc._frame a = Arc.Circle_frame circle_of_radius_2
    /\ Arc._radius a = Some (Arc.Circle_radius circle_of_radius_2)
    /\ Arc._start_angle a = Some 0
    /\ Arc._end_angle a = Some PI
    /\ Arc.circle a = (Ok circle_of_radius_2, a).
Proof.
  apply (from_circle_preserves circle_of_radius_2 0 PI).
  - cbn. lra.
  - exact zero_in_range.
  - exact PI_in_range.
Defined.

(** The record of [Arc(worldXY, 2.0, 0.0, pi)] assigned to the blank arc. *)
Lemma data_round_trip_witness :
  exists d : gmap string (Arc.val WorldFrame.Frame),
    Arc.data half_circle = (Ok d, half_circle)
    /\ dom d = {[ "frame"; "radius"; "start_angle"; "end_angle" ]}
    /\ forall b, exists b',
         Arc.set_data d b = (Ok tt, b')
         /\ b' = half_circle
         /\ Arc.__eq__ WorldFrame.Frame_eq (Arc.PArc half_circle) b' = (Ok true, b')
         /\ Arc.__eq__ WorldFrame.Frame_eq (Arc.PArc b') half_circle
            = (Ok true, half_circle).
Proof.
  apply (data_round_trip WorldFrame.Frame_eq WorldFrame.worldXY 2 0 PI).
  - lra.
  - exact zero_in_range.
  - exact PI_in_range.
  - apply WorldFrame_eq_refl.
Defined.

(** [Arc(worldXY, 2.0, 0.0, pi) == [worldXY, 2.0, 0.0, pi]]. *)
Lemma eq_duck_typed_witness :
  Arc.__eq__ WorldFrame.Frame_eq
    (Arc.PList [Arc.VFrame WorldFrame.worldXY; Arc.VFloat 2; Arc.VFloat 0;
                Arc.VFloat PI])
    half_circle
  = (Ok true, half_circle).
Proof.
  apply (eq_duck_typed WorldFrame.Frame_eq WorldFrame.worldXY 2 0 PI
           _ (Arc.VFrame WorldFrame.worldXY) (Arc.VFloat 2) (Arc.VFloat 0)
           (Arc.VFloat PI)).
  - reflexivity.
  - apply WorldFrame_eq_refl.
  - apply Reqb_refl.
  - apply Reqb_refl.
  - apply Reqb_refl.
Defined.

(** The conjugate of [Quaternion(1, 2, 3, 4)], and back. *)
Lemma conjugate_round_trip_witness :
  exists l1 h1,
    Quaternion.conjugate transformations.quaternion_conjugate 1%positive store1234
    = Some (Ok l1, h1)
    /\ (l1 ∉ dom store1234)
    /\ h1 !! l1 = Some (Quaternion.mkQuaternion 1 (- 2) (- 3) (- 4))
    /\ h1 !! 1%positive = Some (Quaternion.mkQuaternion 1 2 3 4)
    /\ exists l2 h2,
         Quaternion.conjugate transformations.quaternion_conjugate l1 h1
         = Some (Ok l2, h2)
         /\ (l2 ∉ dom h1)
         /\ h2 !! l2 = Some (Quaternion.mkQuaternion 1 2 3 4)
         /\ h2 !! 1%positive = Some (Quaternion.mkQuaternion 1 2 3 4).
Proof.
  apply (conjugate_round_trip store1234 1%positive (Quaternion.mkQuaternion 1 2 3 4)).
  apply lookup_singleton_eq.
Defined.

(** With the algebra of the specification, normalisation succeeds exactly
    on a quaternion of nonzero norm. *)
Lemma unitize_nonzero_norm w x y z :
  let n := sqrt (w * w + x * x + y * y + z * z) in
  n <> 0 ->
  transformations.quaternion_unitize [w; x; y; z]
  = Ok [w / n; x / n; y / n; z / n].
Proof.
  cbn zeta. intros Hn. unfold transformations.quaternion_unitize. cbn.
  apply Reqb_false in Hn. now rewrite Hn.
Qed.

Lemma unitize_zero_norm w x y z :
  sqrt (w * w + x * x + y * y + z * z) = 0 ->
  transformations.quaternion_unitize [w; x; y; z] = Raise ZeroDivisionError.
Proof.
  intros Hn. unfold transformations.quaternion_unitize. cbn.
  apply Reqb_true in Hn. now rewrite Hn.
Qed.

Lemma canonize_negative w x y z :
  w < 0 ->
  transformations.quaternion_canonize [w; x; y; z] = Ok [- w; - x; - y; - z].
Proof.
  intros Hw. unfold transformations.quaternion_canonize.
  apply Rltb_true in Hw. now rewrite Hw.
Qed.

Lemma canonize_nonnegative w x y z :
  0 <= w ->
  transformations.quaternion_canonize [w; x; y; z] = Ok [w; x; y; z].
Proof.
  intros Hw. unfold transformations.quaternion_canonize.
  apply Rltb_false in Hw. now rewrite Hw.
Qed.

Lemma norm_minus_two : sqrt (- 2 * - 2 + 0 * 0 + 0 * 0 + 0 * 0) <> 0.
Proof.
  assert (H : 0 < sqrt (- 2 * - 2 + 0 * 0 + 0 * 0 + 0 * 0))
    by (apply sqrt_lt_R0; lra).
  lra.
Qed.

(** [Quaternion(-2, 0, 0, 0)] in a store with [Quaternion(1, 2, 3, 4)],
    under the algebra of the specification. *)
Lemma mutating_and_non_mutating_witness :
  (exists l' h1 h2,
      Quaternion.unitized transformations.quaternion_unitize 1%positive store2
      = Some (Ok l', h1)
      /\ (l' ∉ dom store2)
      /\ h1 !! 1%positive = Some (Quaternion.mkQuaternion (- 2) 0 0 0)
      /\ Quaternion.unitize transformations.quaternion_unitize 1%positive store2
         = Some (Ok tt, h2)
      /\ h2 !! 1%positive = h1 !! l')
  /\ (exists l' h1 h2,
      Quaternion.canonized transformations.quaternion_canonize 1%positive store2
      = Some (Ok l', h1)
      /\ (l' ∉ dom store2)
      /\ h1 !! l' = Some (Quaternion.mkQuaternion (- - 2) (- 0) (- 0) (- 0))
      /\ h1 !! 1%positive = Some (Quaternion.mkQuaternion (- 2) 0 0 0)
      /\ Quaternion.canonize transformations.quaternion_canonize 1%positive store2
         = Some (Ok tt, h2)
      /\ h2 !! 1%positive = h1 !! l')
  /\ (exists l' h1,
      Quaternion.__mul__ transformations.quaternion_multiply 1%positive 2%positive
        store2
      = Some (Ok l', h1)
      /\ (l' ∉ dom store2)
      /\ h1 !! 1%positive = Some (Quaternion.mkQuaternion (- 2) 0 0 0)
      /\ h1 !! 2%positive = Some (Quaternion.mkQuaternion 1 2 3 4)).
Proof.
  destruct (mutating_and_non_mutating
              transformations.quaternion_multiply
              transformations.quaternion_unitize
              transformations.quaternion_canonize
              store2 1%positive (Quaternion.mkQuaternion (- 2) 0 0 0)
              (lookup_insert_eq _ _ _)) as (Hu & Hc & Hm).
  split; [| split].
  - destruct (Hu _ _ _ _ (unitize_nonzero_norm (- 2) 0 0 0 norm_minus_two))
      as (l' & h1 & h2 & H1 & H2 & _ & H4 & _ & H6 & H7 & _).
    exists l', h1, h2. auto.
  - destruct (Hc _ _ _ _ (canonize_negative (- 2) 0 0 0 ltac:(lra)))
      as (l' & h1 & h2 & H1 & H2 & H3 & H4 & _ & H6 & H7 & _).
    exists l', h1, h2. auto 10.
  - destruct (Hm 2%positive (Quaternion.mkQuaternion 1 2 3 4) _ _ _ _
                ltac:(reflexivity) ltac:(reflexivity))
      as (l' & h1 & H1 & H2 & _ & H4 & H5 & _).
    exists l', h1. auto.
Defined.

(** [radius = 0.0] is refused and [start_angle = 2 pi] is stored, on an arc
    whose attributes are all unset. *)
Lemma setters_validate_witness :
  Arc.set_radius (Arc.VFloat 0) (@Arc.blank WorldFrame.Frame)
  = (Raise InvalidValue_radius, Arc.blank)
  /\ Arc.set_start_angle (Arc.VFloat PI2) (@Arc.blank WorldFrame.Frame)
     = (Ok tt, Arc.mkArc Arc.VNone None (Some PI2) None).
Proof.
  pose proof PI2_pos as Hpi. split.
  - apply (setters_validate (@Arc.blank WorldFrame.Frame) 0). lra.
  - apply (setters_validate (@Arc.blank WorldFrame.Frame) PI2). lra.
Defined.

(** The getters on an arc whose attributes are all unset, and [radius] on
    [Arc(worldXY, 2.0, 0.0, pi)]. *)
Lemma getters_unset_and_set_witness :
  Arc.radius (@Arc.blank WorldFrame.Frame) = (Raise NotSet_radius, Arc.blank)
  /\ Arc.end_angle (@Arc.blank WorldFrame.Frame) = (Raise NotSet_end_angle, Arc.blank)
  /\ (exists a', Arc.start_angle (@Arc.blank WorldFrame.Frame) = (Ok 0, a')
                 /\ Arc._start_angle a' = Some 0)
  /\ Arc.radius half_circle = (Ok 2, half_circle).
Proof.
  destruct (getters_unset_and_set (@Arc.blank WorldFrame.Frame))
    as (Hr & He & Hs & _).
  destruct (getters_unset_and_set half_circle) as (_ & _ & _ & Hr' & _).
  split; [exact (Hr eq_refl) |]. split; [exact (He eq_refl) |]. split.
  - destruct (Hs eq_refl) as (a' & H1 & H2 & _). exists a'. auto.
  - exact (Hr' 2 eq_refl).
Defined.

(** [Arc(worldXY, 2.0, 0.0, pi)] compared with [Arc(worldXY, 1.0, 0.0, 0.0)],
    with [None] and with a list of two items. *)
Lemma eq_componentwise_witness :
  Arc.__eq__ WorldFrame.Frame_eq Arc.PNone half_circle = (Ok false, half_circle)
  /\ Arc.__eq__ WorldFrame.Frame_eq
       (Arc.PList [Arc.VFrame WorldFrame.worldXY; Arc.VFloat 2]) half_circle
     = (Ok false, half_circle)
  /\ exists res,
       Arc.__eq__ WorldFrame.Frame_eq (Arc.PArc degenerate_arc) half_circle
       = (Ok res, half_circle)
       /\ (res = true <->
           WorldFrame.Frame_eq WorldFrame.worldXY (Arc.VFrame WorldFrame.worldXY)
           = true /\ 2 = 1 /\ 0 = 0 /\ PI = 0).
Proof.
  destruct (eq_componentwise WorldFrame.Frame_eq WorldFrame.worldXY
              WorldFrame.worldXY 2 0 PI 1 0 0)
    as ((res & H1 & _ & H2) & _ & Hn & _ & Hl & _).
  split; [exact Hn |]. split.
  - apply Hl. cbn. lia.
  - exists res. auto.
Defined.

(** * Further properties of [Arc] *)

Section ArcInvariantProperties.

Context {Frame : Type}.

Implicit Types (a b : Arc.Arc Frame) (f value : Arc.val Frame) (v r s e : R).




Lemma angle_accepted v : Rltb v 0 || Rltb PI2 v = false -> 0 <= v <= PI2.
Proof.
  intros E. apply orb_false_iff in E as [E0 E1].
  apply Rltb_false in E0, E1. lra.
Qed.










End ArcInvariantProperties.

Section ArcConstructorProperties.

Context {Frame : Type}.

Implicit Types (a b : Arc.Arc Frame) (f value : Arc.val Frame) (v r s e : R).

(** [__init__] forgets the three float fields of the receiver and then runs
    the three validating setters in the order radius, start, end. *)
Lemma init_steps f value1 value2 value3 a :
  Arc.__init__ f value1 value2 value3 a
  = match Arc.set_radius value1 (Arc.mkArc f None None None) with
    | (Raise ex, a1) => (Raise ex, a1)
    | (Ok _, a1) =>
        match Arc.set_start_angle value2 a1 with
        | (Raise ex, a2) => (Raise ex, a2)
        | (Ok _, a2) => Arc.set_end_angle value3 a2
        end
    end.
Proof. reflexivity. Qed.

Lemma set_radius_ok value a a' :
  Arc.set_radius value a = (Ok tt, a') ->
  exists r, value = Arc.VFloat r /\ 0 < r
            /\ a' = Arc.mkArc (Arc._frame a) (Some r) (Arc._start_angle a)
                      (Arc._end_angle a).
Proof.
  destruct value as [| r | g]; try discriminate.
  unfold Arc.set_radius. destruct (Rleb r 0) eqn:E; [discriminate |].
  apply Rleb_false in E. intros [= <-]. now exists r.
Qed.

Lemma set_start_angle_ok value a a' :
  Arc.set_start_angle value a = (Ok tt, a') ->
  exists s, value = Arc.VFloat s /\ 0 <= s <= PI2
            /\ a' = Arc.mkArc (Arc._frame a) (Arc._radius a) (Some s)
                      (Arc._end_angle a).
Proof.
  destruct value as [| s | g]; try discriminate.
  unfold Arc.set_start_angle. destruct (Rltb s 0 || Rltb PI2 s) eqn:E; [discriminate |].
  apply angle_accepted in E. intros [= <-]. now exists s.
Qed.

Lemma set_end_angle_ok value a a' :
  Arc.set_end_angle value a = (Ok tt, a') ->
  exists e, value = Arc.VFloat e /\ 0 <= e <= PI2
            /\ a' = Arc.mkArc (Arc._frame a) (Arc._radius a) (Arc._start_angle a)
                      (Some e).
Proof.
  destruct value as [| e | g]; try discriminate.
  unfold Arc.set_end_angle. destruct (Rltb e 0 || Rltb PI2 e) eqn:E; [discriminate |].
  apply angle_accepted in E. intros [= <-]. now exists e.
Qed.



(** X3. The constructor validates in the order radius, start angle, end
    angle, and reports the first failure: a radius [<= 0] raises the radius
    error whatever the angles are, then a start angle outside [[0, 2 pi]]
    raises the start-angle error whatever the end angle is, then an end
    angle outside [[0, 2 pi]] raises the end-angle error; [from_circle] on a
    circle of radius [<= 0] raises the radius error. *)
Theorem new_reports_first_failure f r s e :
  (r <= 0 ->
   forall value2 value3,
     Arc.new f (Arc.VFloat r) value2 value3 = Raise InvalidValue_radius)
  /\ (0 < r -> s < 0 \/ PI2 < s ->
      forall value3,
        Arc.new f (Arc.VFloat r) (Arc.VFloat s) value3
        = Raise InvalidValue_start_angle)
  /\ (0 < r -> 0 <= s <= PI2 -> e < 0 \/ PI2 < e ->
      Arc.new f (Arc.VFloat r) (Arc.VFloat s) (Arc.VFloat e)
      = Raise InvalidValue_end_angle)
  /\ (r <= 0 ->
      forall value2 value3,
        Arc.from_circle (Arc.mkCircle f r) value2 value3
        = Raise InvalidValue_radius).
Proof.
  assert (Hrad : r <= 0 -> forall value2 value3,
             Arc.new f (Arc.VFloat r) value2 value3 = Raise InvalidValue_radius).
  { intros Hr value2 value3. unfold Arc.new, Arc.__new__.
    rewrite init_steps, set_radius_raises by assumption. reflexivity. }
  split; [exact Hrad |]. split; [| split; [| exact Hrad]].
  - intros Hr Hs value3. unfold Arc.new, Arc.__new__.
    rewrite init_steps, set_radius_stores, set_start_angle_raises by assumption.
    reflexivity.
  - intros Hr Hs He. unfold Arc.new, Arc.__new__.
    rewrite init_steps, set_radius_stores, set_start_angle_stores,
      set_end_angle_raises by assumption.
    reflexivity.
Qed.

(** X4. On an arc whose angles are stored in [[0, 2 pi]] (as the setters
    leave them), the upper test of [_verify] never fires: [_verify] passes
    exactly when [start_angle <= end_angle], and raises the sweep error
    exactly when [end_angle < start_angle]. *)
Theorem verify_on_stored_angles f r s e :
  0 <= s <= PI2 -> 0 <= e <= PI2 ->
  let a := Arc.mkArc f (Some r) (Some s) (Some e) in
  (Arc._verify a = (Ok tt, a) <-> s <= e)
  /\ (Arc._verify a = (Raise (InvalidGeometry (e - s)), a) <-> e < s).
Proof.
  intros Hs He. cbn zeta.
  destruct (verify_spec f r s e) as [Hraise Hok]. cbn zeta in Hraise, Hok.
  destruct (Rle_dec s e) as [Hle | Hgt].
  - rewrite Hok by lra. split; split; try (intros; lra || reflexivity || discriminate).
  - rewrite Hraise by lra. split; split; try (intros; lra || reflexivity || discriminate).
Qed.


End ArcConstructorProperties.

Section ArcItemProperties.

Context {Frame : Type}.
Context (Frame_eq : Frame -> Arc.val Frame -> bool).

Implicit Types (a b : Arc.Arc Frame) (f value : Arc.val Frame) (v r s e : R).
Implicit Types (key : Z).

Lemma getitem_out_of_range key a :
  (key < 0 \/ 3 < key)%Z -> Arc.__getitem__ key a = (Raise KeyError, a).
Proof.
  intros H. unfold Arc.__getitem__.
  destruct (Z.eqb_spec key 0); [lia |]. destruct (Z.eqb_spec key 1); [lia |].
  destruct (Z.eqb_spec key 2); [lia |]. destruct (Z.eqb_spec key 3); [lia |].
  reflexivity.
Qed.

Lemma key_cases key :
  (0 <= key <= 3)%Z -> key = 0%Z \/ key = 1%Z \/ key = 2%Z \/ key = 3%Z.
Proof. lia. Qed.

(** X6. Positional access: a key outside [0..3] (a negative one too) raises
    [KeyError] and changes nothing, on any arc; on an arc whose fields are
    set, [__iter__] yields [__len__] items, and the item at each key [0..3]
    is what [__getitem__] returns for that key, the arc being unchanged. *)
Theorem getitem_agrees_with_iter a :
  (forall key, (key < 0 \/ 3 < key)%Z ->
     Arc.__getitem__ key a = (Raise KeyError, a))
  /\ (forall f r s e,
        a = Arc.mkArc f (Some r) (Some s) (Some e) ->
        exists items,
          Arc.__iter__ a = (Ok items, a)
          /\ Arc.__len__ a = (Ok (Z.of_nat (List.length items)), a)
          /\ forall key, (0 <= key <= 3)%Z ->
               exists item,
                 Arc.__getitem__ key a = (Ok item, a)
                 /\ Arc.list_getitem items key = Ok item).
Proof.
  split; [intros key; apply getitem_out_of_range |].
  intros f r s e ->. eexists. split; [reflexivity |]. split; [reflexivity |].
  intros key Hkey.
  destruct (key_cases key Hkey) as [-> | [-> | [-> | ->]]];
    eexists; split; reflexivity.
Qed.

Lemma setitem_out_of_range key value a :
  (key < 0 \/ 3 < key)%Z -> Arc.__setitem__ key value a = (Raise KeyError, a).
Proof.
  intros H. unfold Arc.__setitem__.
  destruct (Z.eqb_spec key 0); [lia |]. destruct (Z.eqb_spec key 1); [lia |].
  destruct (Z.eqb_spec key 2); [lia |]. destruct (Z.eqb_spec key 3); [lia |].
  reflexivity.
Qed.

Lemma setitem_ok_key key value a a' :
  Arc.__setitem__ key value a = (Ok tt, a') -> (0 <= key <= 3)%Z.
Proof.
  intros H. destruct (Z_lt_dec key 0) as [Hlt | Hge];
    [rewrite setitem_out_of_range in H by lia; discriminate |].
  destruct (Z_lt_dec 3 key) as [Hlt | Hge'];
    [rewrite setitem_out_of_range in H by lia; discriminate |].
  lia.
Qed.

(** X7. Item assignment and item access: if [arc[key] = value] succeeds
    then [arc[key]] reads [value] back and changes nothing more, and the
    items at the other keys read as they did before; and a key outside
    [0..3] raises [KeyError] and changes nothing, whatever the value. *)
Theorem setitem_then_getitem key value a a' :
  Arc.__setitem__ key value a = (Ok tt, a') ->
  Arc.__getitem__ key a' = (Ok value, a')
  /\ (forall key', key' <> key ->
        fst (Arc.__getitem__ key' a') = fst (Arc.__getitem__ key' a))
  /\ (forall key' value', (key' < 0 \/ 3 < key')%Z ->
        Arc.__setitem__ key' value' a = (Raise KeyError, a)).
Proof.
  intros H. pose proof (setitem_ok_key key value a a' H) as Hkey.
  split; [| split; [| intros; now apply setitem_out_of_range]].
  - destruct (key_cases key Hkey) as [-> | [-> | [-> | ->]]];
      cbn [Arc.__setitem__ Z.eqb] in H.
    + injection H as <-. reflexivity.
    + apply set_radius_ok in H as (r & -> & _ & ->). reflexivity.
    + apply set_start_angle_ok in H as (s & -> & _ & ->). reflexivity.
    + apply set_end_angle_ok in H as (e & -> & _ & ->). reflexivity.
  - intros key' Hne.
    destruct (Z_lt_dec key' 0) as [Hlt | Hge];
      [now rewrite !getitem_out_of_range by lia |].
    destruct (Z_lt_dec 3 key') as [Hlt | Hge'];
      [now rewrite !getitem_out_of_range by lia |].
    assert (Hkey' : (0 <= key' <= 3)%Z) by lia.
    destruct a as [fa ra sa ea].
    destruct (key_cases key Hkey) as [-> | [-> | [-> | ->]]];
      cbn [Arc.__setitem__ Z.eqb] in H;
      [ injection H as <-
      | apply set_radius_ok in H as (r & -> & _ & ->)
      | apply set_start_angle_ok in H as (s & -> & _ & ->)
      | apply set_end_angle_ok in H as (e & -> & _ & ->) ];
      destruct (key_cases key' Hkey') as [-> | [-> | [-> | ->]]];
      try congruence; try reflexivity;
      cbn; try (destruct ra; reflexivity); try (destruct sa; reflexivity);
      try (destruct ea; reflexivity).
Qed.

End ArcItemProperties.

Section ArcEqualityProperties.

Context {Frame : Type}.
Context (Frame_eq : Frame -> Arc.val Frame -> bool).

Implicit Types (a b : Arc.Arc Frame) (f value : Arc.val Frame) (v r s e : R).
Implicit Types (o : Arc.pyobj Frame).


(** X9. On a receiver whose radius was never assigned, [==] with an object
    whose four items can be read returns [False] when the frames differ,
    and otherwise raises the not-set error of the [radius] getter: only the
    reads of the right operand are inside the [try]. The receiver is not
    changed. *)
Theorem eq_on_unset_radius o f (os oe : option R) (v0 v1 v2 v3 : Arc.val Frame) :
  let a := Arc.mkArc f None os oe in
  Arc.try_components o = Ok (v0, v1, v2, v3) ->
  Arc.__eq__ Frame_eq o a
  = if Arc.py_eq Frame_eq f v0 then (Raise NotSet_radius, a) else (Ok false, a).
Proof.
  cbn zeta. intros H. unfold Arc.__eq__. rewrite H.
  unfold Arc.and_then, Arc.frame, Arc.radius, Arc.bind, Arc.ret, Arc.get,
    Arc.raise. cbn -[Arc.py_eq].
  now destruct (Arc.py_eq Frame_eq f v0).
Qed.

(** X10. Assigning [data] is not atomic. A record without the key [frame]
    raises [KeyError] and changes nothing; a record whose radius is a float
    [<= 0] raises the radius error after the frame of the record has already
    replaced the frame of the arc, the radius and the angles being kept; a
    record without the key [radius] raises [KeyError] in the same state. *)
Theorem set_data_partial (d : gmap string (Arc.val Frame)) a :
  (d !! "frame" = None -> Arc.set_data d a = (Raise KeyError, a))
  /\ (forall fv r,
        d !! "frame" = Some fv -> d !! "radius" = Some (Arc.VFloat r) -> r <= 0 ->
        Arc.set_data d a
        = (Raise InvalidValue_radius,
           Arc.mkArc fv (Arc._radius a) (Arc._start_angle a) (Arc._end_angle a)))
  /\ (forall fv,
        d !! "frame" = Some fv -> d !! "radius" = None ->
        Arc.set_data d a
        = (Raise KeyError,
           Arc.mkArc fv (Arc._radius a) (Arc._start_angle a) (Arc._end_angle a))).
Proof.
  split; [| split].
  - intros H. unfold Arc.set_data, Arc.bind, Arc.dict_getitem. now rewrite H.
  - intros fv r Hf Hr Hle. unfold Arc.set_data.
    erewrite bind_ok; cycle 1.
    { erewrite bind_ok by (apply dict_getitem_some, Hf). reflexivity. }
    erewrite bind_raise; [reflexivity |].
    erewrite bind_ok by (apply dict_getitem_some, Hr).
    now apply set_radius_raises.
  - intros fv Hf Hr. unfold Arc.set_data.
    erewrite bind_ok; cycle 1.
    { erewrite bind_ok by (apply dict_getitem_some, Hf). reflexivity. }
    erewrite bind_raise; [reflexivity |].
    erewrite bind_raise; [reflexivity |].
    unfold Arc.dict_getitem. now rewrite Hr.
Qed.

(** [_verify] reads the two angles only; with the end angle set it leaves
    the start angle set, to its default if it was not. *)
Lemma verify_steps f (or os : option R) e :
  let s := match os with Some s => s | None => 0 end in
  let a1 := Arc.mkArc f or (Some s) (Some e) in
  Arc._verify (Arc.mkArc f or os (Some e))
  = if Rltb (e - s) 0 then (Raise (InvalidGeometry (e - s)), a1)
    else if Rltb PI2 (e - s) then (Raise (InvalidGeometry (e - s)), a1)
         else (Ok tt, a1).
Proof.
  destruct os as [s |]; cbn zeta;
    unfold Arc._verify, Arc.angle, Arc.start_angle, Arc.end_angle, Arc.bind,
      Arc.ret, Arc.raise, Arc.get, Arc.put; cbn;
    (match goal with |- context [Rltb ?x 0] => destruct (Rltb x 0) end);
    cbn; try reflexivity;
    (match goal with |- context [Rltb PI2 ?x] => destruct (Rltb PI2 x) end);
    reflexivity.
Qed.

(** X11. Reads are repeatable although the [start_angle] getter may write
    its default: whatever [angle], [length] and [_verify] answer on an arc,
    they answer the same on the arc they leave, and leave it unchanged. *)
Theorem reads_are_repeatable a :
  (forall out a', Arc.angle a = (out, a') -> Arc.angle a' = (out, a'))
  /\ (forall out a', Arc.length a = (out, a') -> Arc.length a' = (out, a'))
  /\ (forall out a', Arc._verify a = (out, a') -> Arc._verify a' = (out, a')).
Proof.
  split; [| split].
  - destruct a as [f [r |] [s |] [e |]]; intros out a' [= <- <-]; reflexivity.
  - destruct a as [f [r |] [s |] [e |]]; intros out a' [= <- <-]; reflexivity.
  - destruct a as [f or os [e |]]; intros out a';
      [| intros [= <- <-]; reflexivity].
    rewrite verify_steps. cbn zeta.
    set (s := match os with Some s => s | None => 0 end).
    pose proof (verify_steps f or (Some s) e) as Hs. cbn zeta in Hs.
    destruct (Rltb (e - s) 0); [intros [= <- <-]; exact Hs |].
    destruct (Rltb PI2 (e - s)); intros [= <- <-]; exact Hs.
Qed.

End ArcEqualityProperties.

(** * Further properties of [Quaternion] *)

Section QuaternionFailureProperties.

Context (quaternion_multiply : list R -> list R -> result (list R)).
Context (quaternion_conjugate quaternion_unitize quaternion_canonize
         : list R -> result (list R)).

Implicit Types (h : gmap positive Quaternion.Quaternion).
Implicit Types (l k : positive) (q : Quaternion.Quaternion).

Lemma new_star_arity (p : list R) h :
  List.length p <> 4%nat -> Quaternion.new_star p h = Some (Raise TypeError, h).
Proof.
  intros H. destruct p as [| a [| b [| c [| d [| e p]]]]]; try reflexivity.
  now contradiction H.
Qed.

Lemma assign_star_arity (p : list R) l h :
  List.length p <> 4%nat ->
  Quaternion.assign_star l p h
  = Some (Raise (ValueError "values to unpack (expected 4)" []), h).
Proof.
  intros H. destruct p as [| a [| b [| c [| d [| e p]]]]]; try reflexivity.
  now contradiction H.
Qed.

(** The two shapes of method, when the function [g] fails or returns a
    sequence that does not have four items. *)
Lemma value_form_failure (g : list R -> result (list R)) h l q :
  h !! l = Some q ->
  (forall ex, g (Quaternion.components q) = Raise ex ->
     Quaternion.unitized g l h = Some (Raise ex, h))
  /\ (forall p, g (Quaternion.components q) = Ok p -> List.length p <> 4%nat ->
      Quaternion.unitized g l h = Some (Raise TypeError, h)).
Proof.
  intros H. split.
  - intros ex Hg. now apply (raise_keeps_store g h l q ex H Hg).
  - intros p Hg Hp. unfold Quaternion.unitized, Quaternion.bind.
    rewrite (iter_live h l q H). unfold Quaternion.components in Hg |- *.
    rewrite Hg. cbn. now apply new_star_arity.
Qed.

Lemma in_place_failure (g : list R -> result (list R)) h l q :
  h !! l = Some q ->
  (forall ex, g (Quaternion.components q) = Raise ex ->
     Quaternion.unitize g l h = Some (Raise ex, h))
  /\ (forall p, g (Quaternion.components q) = Ok p -> List.length p <> 4%nat ->
      exists msg args,
        Quaternion.unitize g l h = Some (Raise (ValueError msg args), h)).
Proof.
  intros H. split.
  - intros ex Hg. now apply (raise_keeps_store g h l q ex H Hg).
  - intros p Hg Hp. unfold Quaternion.unitize, Quaternion.bind.
    rewrite (iter_live h l q H). unfold Quaternion.components in Hg |- *.
    rewrite Hg. cbn. eexists _, _. now apply assign_star_arity.
Qed.

(** X12. When the quaternion algebra fails, nothing is written. If the
    function a method delegates to raises, the method raises the same
    exception and the store is as before; if it returns a sequence that does
    not have four items, the value-returning methods ([conjugate],
    [unitized], [canonized], [*]) raise [TypeError] and the in-place methods
    ([unitize], [canonize]) raise [ValueError], again without any write: the
    receiver keeps its components and no object is created. *)
Theorem failure_writes_nothing h l q :
  h !! l = Some q ->
  (forall ex,
      (quaternion_conjugate (Quaternion.components q) = Raise ex ->
       Quaternion.conjugate quaternion_conjugate l h = Some (Raise ex, h))
      /\ (quaternion_unitize (Quaternion.components q) = Raise ex ->
          Quaternion.unitized quaternion_unitize l h = Some (Raise ex, h)
          /\ Quaternion.unitize quaternion_unitize l h = Some (Raise ex, h))
      /\ (quaternion_canonize (Quaternion.components q) = Raise ex ->
          Quaternion.canonized quaternion_canonize l h = Some (Raise ex, h)
          /\ Quaternion.canonize quaternion_canonize l h = Some (Raise ex, h))
      /\ (forall l2 q2,
            h !! l2 = Some q2 ->
            quaternion_multiply (Quaternion.components q) (Quaternion.components q2)
            = Raise ex ->
            Quaternion.__mul__ quaternion_multiply l l2 h = Some (Raise ex, h)))
  /\ (forall p,
      List.length p <> 4%nat ->
      (quaternion_conjugate (Quaternion.components q) = Ok p ->
       Quaternion.conjugate quaternion_conjugate l h = Some (Raise TypeError, h))
      /\ (quaternion_unitize (Quaternion.components q) = Ok p ->
          Quaternion.unitized quaternion_unitize l h = Some (Raise TypeError, h)
          /\ exists msg args,
               Quaternion.unitize quaternion_unitize l h
               = Some (Raise (ValueError msg args), h))
      /\ (quaternion_canonize (Quaternion.components q) = Ok p ->
          Quaternion.canonized quaternion_canonize l h = Some (Raise TypeError, h)
          /\ exists msg args,
               Quaternion.canonize quaternion_canonize l h
               = Some (Raise (ValueError msg args), h))
      /\ (forall l2 q2,
            h !! l2 = Some q2 ->
            quaternion_multiply (Quaternion.components q) (Quaternion.components q2)
            = Ok p ->
            Quaternion.__mul__ quaternion_multiply l l2 h
            = Some (Raise TypeError, h))).
Proof.
  intros H.
  pose proof (fun g => value_form_failure g h l q H) as Hv.
  pose proof (fun g => in_place_failure g h l q H) as Hi.
  split.
  - intros ex. split; [| split; [| split]].
    + exact (proj1 (Hv quaternion_conjugate) ex).
    + intros Hg. split;
        [exact (proj1 (Hv quaternion_unitize) ex Hg)
        | exact (proj1 (Hi quaternion_unitize) ex Hg)].
    + intros Hg. split;
        [exact (proj1 (Hv quaternion_canonize) ex Hg)
        | exact (proj1 (Hi quaternion_canonize) ex Hg)].
    + intros l2 q2 H2 Hm. unfold Quaternion.__mul__.
      unfold Quaternion.bind at 1. rewrite (iter_live h l q H).
      unfold Quaternion.bind at 1. rewrite (iter_live h l2 q2 H2).
      unfold Quaternion.bind. now rewrite Hm.
  - intros p Hp. split; [| split; [| split]].
    + intros Hg. exact (proj2 (Hv quaternion_conjugate) p Hg Hp).
    + intros Hg. split;
        [exact (proj2 (Hv quaternion_unitize) p Hg Hp)
        | exact (proj2 (Hi quaternion_unitize) p Hg Hp)].
    + intros Hg. split;
        [exact (proj2 (Hv quaternion_canonize) p Hg Hp)
        | exact (proj2 (Hi quaternion_canonize) p Hg Hp)].
    + intros l2 q2 H2 Hm. unfold Quaternion.__mul__.
      unfold Quaternion.bind at 1. rewrite (iter_live h l q H).
      unfold Quaternion.bind at 1. rewrite (iter_live h l2 q2 H2).
      unfold Quaternion.bind. rewrite Hm. cbn. now apply new_star_arity.
Qed.

End QuaternionFailureProperties.

Section QuaternionChainProperties.

Context (quaternion_unitize quaternion_canonize : list R -> result (list R)).

Implicit Types (h : gmap positive Quaternion.Quaternion).
Implicit Types (l k : positive) (q : Quaternion.Quaternion).

(** X13. Chaining the in-place methods and chaining the value-returning
    ones compute the same quaternion: when the algebra succeeds on both
    steps, [q.canonize(); q.unitize()] returns [None] and leaves in [q] the
    components of the object that [q.canonized.unitized] returns; the value
    chain leaves [q] unchanged and creates two objects, distinct from each
    other and from every object that existed. *)
Theorem in_place_chain_is_value_chain h l q a b c d a' b' c' d' :
  h !! l = Some q ->
  quaternion_canonize (Quaternion.components q) = Ok [a; b; c; d] ->
  quaternion_unitize [a; b; c; d] = Ok [a'; b'; c'; d'] ->
  let result := Quaternion.mkQuaternion a' b' c' d' in
  (exists h2,
      Quaternion.bind (Quaternion.canonize quaternion_canonize l)
        (fun _ => Quaternion.unitize quaternion_unitize l) h
      = Some (Ok tt, h2)
      /\ h2 !! l = Some result
      /\ (forall k, k <> l -> h2 !! k = h !! k))
  /\ (exists l1 l2 h2,
      Quaternion.bind (Quaternion.canonized quaternion_canonize l)
        (fun l1 => Quaternion.unitized quaternion_unitize l1) h
      = Some (Ok l2, h2)
      /\ h2 !! l2 = Some result
      /\ h2 !! l1 = Some (Quaternion.mkQuaternion a b c d)
      /\ h2 !! l = Some q
      /\ (l1 ∉ dom h) /\ (l2 ∉ dom h) /\ l1 <> l2
      /\ (forall k, k <> l1 -> k <> l2 -> h2 !! k = h !! k)).
Proof.
  intros H Hc Hu. cbn zeta. split.
  - set (h1 := <[l := Quaternion.mkQuaternion a b c d]> h).
    assert (H1 : h1 !! l = Some (Quaternion.mkQuaternion a b c d))
      by apply lookup_insert_eq.
    exists (<[l := Quaternion.mkQuaternion a' b' c' d']> h1).
    split; [| split].
    + unfold Quaternion.bind at 1.
      change (Quaternion.canonize quaternion_canonize l h)
        with (Quaternion.unitize quaternion_canonize l h).
      rewrite (updates_in_place quaternion_canonize h l q a b c d H Hc).
      now apply updates_in_place with (q := Quaternion.mkQuaternion a b c d).
    + apply lookup_insert_eq.
    + intros k Hk. unfold h1. now rewrite !lookup_insert_ne by congruence.
  - set (l1 := fresh (dom h)).
    set (h1 := <[l1 := Quaternion.mkQuaternion a b c d]> h).
    set (l2 := fresh (dom h1)).
    assert (Hl1 : h !! l1 = None) by apply fresh_not_live.
    assert (Hl2 : h1 !! l2 = None) by apply fresh_not_live.
    assert (H1 : h1 !! l1 = Some (Quaternion.mkQuaternion a b c d))
      by apply lookup_insert_eq.
    assert (Hne : l1 <> l2) by congruence.
    assert (Hl2' : h !! l2 = None).
    { unfold h1 in Hl2. now rewrite lookup_insert_ne in Hl2. }
    exists l1, l2, (<[l2 := Quaternion.mkQuaternion a' b' c' d']> h1).
    split; [| split; [| split; [| split; [| split; [| split; [| split]]]]]].
    + unfold Quaternion.bind at 1.
      change (Quaternion.canonized quaternion_canonize l h)
        with (Quaternion.unitized quaternion_canonize l h).
      rewrite (returns_new quaternion_canonize h l q a b c d H Hc).
      now apply returns_new with (q := Quaternion.mkQuaternion a b c d).
    + apply lookup_insert_eq.
    + rewrite lookup_insert_ne by congruence. exact H1.
    + unfold h1. rewrite !lookup_insert_ne by congruence. exact H.
    + apply is_fresh.
    + now apply not_elem_of_dom.
    + exact Hne.
    + intros k Hk1 Hk2. unfold h1. now rewrite !lookup_insert_ne by congruence.
Qed.

(** X14. Construction and the component views: [Quaternion.from_frame] on a
    frame whose quaternion has four items, like [Quaternion(w, x, y, z)],
    creates a new object and changes no other; on the new object [wxyz] and
    [list] read the four items in order and [xyzw] reads them with the
    scalar moved to the end, without writing. When the frame's quaternion
    does not have four items, [from_frame] raises [ValueError] and creates
    nothing. *)
Theorem from_frame_then_views (fq : list R) h :
  (forall w x y z,
      fq = [w; x; y; z] ->
      exists l h',
        Quaternion.from_frame fq h = Some (Ok l, h')
        /\ Quaternion.new w x y z h = Some (Ok l, h')
        /\ (l ∉ dom h)
        /\ (forall k, k <> l -> h' !! k = h !! k)
        /\ Quaternion.wxyz l h' = Some (Ok fq, h')
        /\ Quaternion.__iter__ l h' = Some (Ok fq, h')
        /\ Quaternion.xyzw l h' = Some (Ok [x; y; z; w], h'))
  /\ (List.length fq <> 4%nat ->
      exists msg args,
        Quaternion.from_frame fq h = Some (Raise (ValueError msg args), h)).
Proof.
  split.
  - intros w x y z ->.
    set (l := fresh (dom h)).
    set (h' := <[l := Quaternion.mkQuaternion w x y z]> h).
    assert (H' : h' !! l = Some (Quaternion.mkQuaternion w x y z))
      by apply lookup_insert_eq.
    exists l, h'. split; [reflexivity |]. split; [reflexivity |].
    split; [apply is_fresh |].
    split; [intros k Hk; unfold h'; now rewrite lookup_insert_ne by congruence |].
    unfold Quaternion.wxyz, Quaternion.xyzw, Quaternion.__iter__,
      Quaternion.bind, Quaternion.deref.
    rewrite H'. repeat split.
  - intros Hlen.
    destruct fq as [| a [| b [| c [| d [| e p]]]]];
      try (eexists _, _; reflexivity).
    now contradiction Hlen.
Qed.

End QuaternionChainProperties.

(** * Properties of the network artist *)

Section NetworkArtistProperties.

Context (nodes : list Z).
Context (edges : list (Z * Z)).
Context (node_attributes_xy : Z -> R * R).
Context (number_of_nodes : R).
Context (dpi : R).

Implicit Types (self : NetworkArtist.NetworkArtist).






Abbreviation draw :=
  (NetworkArtist.draw nodes edges node_attributes_xy number_of_nodes dpi).
Abbreviation node_xy := (NetworkArtist.node_xy nodes node_attributes_xy).

Lemma foldl_insert_fun {K V} `{Countable K} (keys : list K) (f : K -> V)
    (d : gmap K V) (key : K) :
  foldl (fun d key => <[key := f key]> d) d keys !! key
  = if decide (key ∈ keys) then Some (f key) else d !! key.
Proof.
  revert d. induction keys as [| k keys IH]; intros d; cbn.
  - destruct (decide (key ∈ [])) as [Hin | _]; [| reflexivity].
    now apply elem_of_nil in Hin.
  - rewrite IH. destruct (decide (key ∈ keys)) as [Hin | Hnin].
    + rewrite decide_True by (now apply elem_of_cons; right). reflexivity.
    + destruct (decide (key = k)) as [-> | Hne].
      * rewrite decide_True by (apply elem_of_cons; now left).
        apply lookup_insert_eq.
      * rewrite decide_False by (rewrite elem_of_cons; tauto).
        now apply lookup_insert_ne.
Qed.

Lemma node_xy_lookup node :
  node_xy !! node
  = if decide (node ∈ nodes) then Some (node_attributes_xy node) else None.
Proof.
  unfold NetworkArtist.node_xy. rewrite foldl_insert_fun.
  destruct (decide (node ∈ nodes)); [reflexivity | apply lookup_empty].
Qed.

(** The edge loop succeeds exactly on edges whose two ends are nodes, and
    then appends one line, one colour and one width per edge, in order. *)
Lemma edge_loop_ok ec ew (todo : list (Z * Z)) lines colors widths :
  Forall (fun edge => fst edge ∈ nodes /\ snd edge ∈ nodes) todo ->
  NetworkArtist.edge_loop nodes node_attributes_xy (Some ec) (Some ew) todo
    lines colors widths
  = NetworkArtist.Done
      ((lines ++ map (fun edge => (node_attributes_xy (fst edge),
                                   node_attributes_xy (snd edge))) todo)%list,
       (colors ++ map (fun edge => NetworkArtist.dict_get ec edge
                                     NetworkArtist.default_edgecolor) todo)%list,
       (widths ++ map (fun edge => NetworkArtist.dict_get ew edge
                                     NetworkArtist.default_edgewidth) todo)%list).
Proof.
  intros Hall. revert lines colors widths.
  induction Hall as [| edge todo [H0 H1] _ IH]; intros lines colors widths; cbn.
  - now rewrite !app_nil_r.
  - rewrite !node_xy_lookup, !decide_True by assumption. cbn.
    rewrite IH, <- !app_assoc. reflexivity.
Qed.

Lemma edge_loop_key_error oec oew (todo : list (Z * Z)) lines colors widths :
  Exists (fun edge => fst edge ∉ nodes \/ snd edge ∉ nodes) todo ->
  (todo <> [] -> oec <> None /\ oew <> None) ->
  NetworkArtist.edge_loop nodes node_attributes_xy oec oew todo lines colors widths
  = NetworkArtist.Fail NetworkArtist.KeyError.
Proof.
  intros Hex Hset.
  destruct (Hset ltac:(destruct Hex; discriminate)) as [Hec Hew].
  destruct oec as [ec |]; [| contradiction]. destruct oew as [ew |]; [| contradiction].
  clear Hset Hec Hew. revert lines colors widths.
  induction todo as [| edge todo IH]; intros lines colors widths;
    [now apply Exists_nil in Hex |].
  cbn. rewrite !node_xy_lookup.
  destruct (decide (fst edge ∈ nodes)) as [H0 | H0]; [| reflexivity].
  destruct (decide (snd edge ∈ nodes)) as [H1 | H1]; [| reflexivity].
  cbn. apply IH. apply Exists_cons in Hex as [[Hn | Hn] | Hex]; tauto.
Qed.

Lemma node_loop_ok nc size (todo : list Z) circles :
  Forall (fun node => node ∈ nodes) todo ->
  NetworkArtist.node_loop nodes node_attributes_xy (Some nc) size todo circles
  = NetworkArtist.Done
      (circles ++ map (fun node =>
                         NetworkArtist.mkCircle (node_attributes_xy node) size
                           (NetworkArtist.dict_get nc node
                              NetworkArtist.default_nodecolor)) todo)%list.
Proof.
  intros Hall. revert circles.
  induction Hall as [| node todo H0 _ IH]; intros circles; cbn.
  - now rewrite app_nil_r.
  - rewrite node_xy_lookup, decide_True by assumption. cbn.
    rewrite IH, <- app_assoc. reflexivity.
Qed.

Lemma nodes_are_nodes : Forall (fun node => node ∈ nodes) nodes.
Proof. apply Forall_forall. auto. Qed.

(** The divisor of the node size: [plotter.dpi] under the absolute policy,
    the number of nodes otherwise. *)
Lemma size_divisor (policy : string) (size : R) :
  (if String.eqb policy "absolute"
   then NetworkArtist.divide size dpi
   else NetworkArtist.divide size number_of_nodes)
  = NetworkArtist.divide size
      (if String.eqb policy "absolute" then dpi else number_of_nodes).
Proof. destruct (String.eqb policy "absolute"); reflexivity. Qed.

(** X16. [draw] looks at [show_nodes] only. With [show_nodes] false it adds
    nothing to the axes and raises nothing, whatever [show_edges] is: the
    edges are drawn under the test of [show_nodes] as well. And setting
    [show_edges] to any value before [draw] changes neither what [draw]
    returns or raises nor what it adds to the axes. *)
Theorem draw_ignores_show_edges self :
  (NetworkArtist.show_nodes self = false ->
   draw self = (NetworkArtist.Done tt, self))
  /\ (forall value,
        let self' := snd (NetworkArtist.set_show_edges value self) in
        fst (draw self') = fst (draw self)
        /\ NetworkArtist.axes (snd (draw self'))
           = NetworkArtist.axes (snd (draw self))
        /\ NetworkArtist._mpl_edge_collection (snd (draw self'))
           = NetworkArtist._mpl_edge_collection (snd (draw self))).
Proof.
  split.
  - intros H. destruct self as [sn se ns sp nc ec ew mpl ax].
    cbn in H. subst sn. reflexivity.
  - intros value. cbn zeta. destruct self as [sn se ns sp nc ec ew mpl ax].
    unfold NetworkArtist.draw, NetworkArtist.draw_edges, NetworkArtist.draw_nodes,
      NetworkArtist.set_show_edges, NetworkArtist.bind, NetworkArtist.get,
      NetworkArtist.lift, NetworkArtist.ret, NetworkArtist.raise,
      NetworkArtist.add_collection, NetworkArtist.set_mpl_edge_collection.
    cbn. destruct sn; cbn; [| repeat split].
    destruct (NetworkArtist.edge_loop nodes node_attributes_xy ec ew edges [] [] [])
      as [[[ls cs] ws] | e]; cbn; [| repeat split].
    destruct (if String.eqb sp "absolute"
              then NetworkArtist.divide ns dpi
              else NetworkArtist.divide ns number_of_nodes) as [size | e];
      cbn; [| repeat split].
    destruct (NetworkArtist.node_loop nodes node_attributes_xy nc size nodes [])
      as [circles | e]; cbn; repeat split.
Qed.

(** X17. What [draw] adds. With [show_nodes] true, the three dicts set,
    every end of every edge among the nodes and a nonzero divisor of the
    node size, [draw] raises nothing and adds to the axes exactly two
    collections, in this order: the lines, one per edge of the network in
    the order of the edges, each with the colour and the width the dicts
    give to the edge or else the defaults [(0, 0, 0)] and [1.0]; then the
    circles, one per node in the order of the nodes, at the position of the
    node, all of the same radius, each with the colour the dict gives to
    the node or else [(1, 1, 1)]. The line collection is kept in
    [_mpl_edge_collection]. *)
Theorem draw_adds_lines_then_circles self nc ec ew :
  NetworkArtist.show_nodes self = true ->
  NetworkArtist._nodecolor self = Some nc ->
  NetworkArtist._edgecolor self = Some ec ->
  NetworkArtist._edgewidth self = Some ew ->
  Forall (fun edge => fst edge ∈ nodes /\ snd edge ∈ nodes) edges ->
  let divisor := if String.eqb (NetworkArtist.sizepolicy self) "absolute"
                 then dpi else number_of_nodes in
  divisor <> 0 ->
  let size := NetworkArtist.nodesize self / divisor in
  let the_lines :=
    NetworkArtist.mkLineCollection
      (map (fun edge => (node_attributes_xy (fst edge),
                         node_attributes_xy (snd edge))) edges)
      (map (fun edge => NetworkArtist.dict_get ew edge
                          NetworkArtist.default_edgewidth) edges)
      (map (fun edge => NetworkArtist.dict_get ec edge
                          NetworkArtist.default_edgecolor) edges)
      NetworkArtist.zorder_edges in
  let the_circles :=
    map (fun node =>
           NetworkArtist.mkCircle (node_attributes_xy node) size
             (NetworkArtist.dict_get nc node NetworkArtist.default_nodecolor))
      nodes in
  exists self',
    draw self = (NetworkArtist.Done tt, self')
    /\ NetworkArtist.axes self'
       = (NetworkArtist.axes self
          ++ [NetworkArtist.Lines the_lines;
              NetworkArtist.Patches the_circles NetworkArtist.zorder_nodes])%list
    /\ NetworkArtist._mpl_edge_collection self' = Some the_lines.
Proof.
  intros Hsn Hnc Hec Hew Hedges divisor Hdiv size the_lines the_circles.
  destruct self as [sn se ns sp onc oec oew mpl ax]. cbn in *. subst.
  unfold NetworkArtist.draw, NetworkArtist.draw_edges, NetworkArtist.draw_nodes,
    NetworkArtist.bind, NetworkArtist.get. cbn.
  rewrite (edge_loop_ok ec ew edges [] [] [] Hedges). cbn.
  rewrite size_divisor. cbn. fold divisor.
  unfold NetworkArtist.divide. apply Reqb_false in Hdiv. rewrite Hdiv. cbn.
  rewrite (node_loop_ok nc (ns / divisor) nodes [] nodes_are_nodes). cbn.
  eexists. split; [reflexivity |]. cbn. rewrite <- app_assoc. split; reflexivity.
Qed.

(** X18. How [draw] fails, with [show_nodes] true and the dicts set. If an
    end of an edge is not a node of the network, [draw] raises [KeyError]
    and has added nothing to the axes. If the ends are fine but the divisor
    of the node size is zero (a network without nodes under the relative
    policy, a zero [dpi] under the absolute one), [draw] raises
    [ZeroDivisionError] after it has added the line collection to the axes
    and kept it in [_mpl_edge_collection]: the axes are left with the edges
    and without the nodes. *)
Theorem draw_failures self ec ew :
  NetworkArtist.show_nodes self = true ->
  NetworkArtist._edgecolor self = Some ec ->
  NetworkArtist._edgewidth self = Some ew ->
  (Exists (fun edge => fst edge ∉ nodes \/ snd edge ∉ nodes) edges ->
   draw self = (NetworkArtist.Fail NetworkArtist.KeyError, self))
  /\ (Forall (fun edge => fst edge ∈ nodes /\ snd edge ∈ nodes) edges ->
      (if String.eqb (NetworkArtist.sizepolicy self) "absolute"
       then dpi else number_of_nodes) = 0 ->
      exists self' the_lines,
        draw self = (NetworkArtist.Fail NetworkArtist.ZeroDivisionError, self')
        /\ NetworkArtist.axes self'
           = (NetworkArtist.axes self ++ [NetworkArtist.Lines the_lines])%list
        /\ List.length (NetworkArtist.lines the_lines) = List.length edges
        /\ NetworkArtist._mpl_edge_collection self' = Some the_lines).
Proof.
  intros Hsn Hec Hew.
  destruct self as [sn se ns sp onc oec oew mpl ax]. cbn in *. subst.
  split.
  - intros Hex.
    unfold NetworkArtist.draw, NetworkArtist.draw_edges,
      NetworkArtist.bind, NetworkArtist.get. cbn.
    rewrite edge_loop_key_error; [reflexivity | exact Hex |].
    intros _. split; discriminate.
  - intros Hedges Hdiv.
    unfold NetworkArtist.draw, NetworkArtist.draw_edges, NetworkArtist.draw_nodes,
      NetworkArtist.bind, NetworkArtist.get. cbn.
    rewrite (edge_loop_ok ec ew edges [] [] [] Hedges). cbn.
    rewrite size_divisor. cbn. rewrite Hdiv.
    unfold NetworkArtist.divide. rewrite Reqb_refl. cbn.
    eexists _, _. split; [reflexivity |]. cbn. split; [reflexivity |].
    split; [apply length_map | reflexivity].
Qed.

End NetworkArtistProperties.

(** * Properties of the mesh accessors *)

Section BlenderMeshProperties.

Context {V : Type}.

Implicit Types (f : Z -> result V) (keys : list Z) (d : gmap Z V).

Lemma dict_comprehension_ok f keys d :
  (forall key, key ∈ keys -> exists v, f key = Ok v) ->
  exists d',
    BlenderMesh.dict_comprehension f keys d = Ok d'
    /\ forall key,
         (key ∈ keys -> exists v, f key = Ok v /\ d' !! key = Some v)
         /\ (key ∉ keys -> d' !! key = d !! key).
Proof.
  revert d. induction keys as [| k keys IH]; intros d Hall; cbn.
  - exists d. split; [reflexivity |]. intros key. split; [| reflexivity].
    intros Hin. now apply elem_of_nil in Hin.
  - destruct (Hall k ltac:(apply elem_of_cons; now left)) as [v Hv].
    rewrite Hv.
    destruct (IH (<[k := v]> d)) as (d' & Hd' & Hlook).
    { intros key Hin. apply Hall, elem_of_cons. now right. }
    exists d'. split; [exact Hd' |]. intros key. split.
    + intros Hin. destruct (decide (key ∈ keys)) as [Hin' | Hnin].
      * now apply Hlook.
      * apply elem_of_cons in Hin as [-> | Hin]; [| contradiction].
        exists v. split; [exact Hv |].
        rewrite (proj2 (Hlook k) Hnin). apply lookup_insert_eq.
    + intros Hnin. rewrite elem_of_cons in Hnin.
      rewrite (proj2 (Hlook key)) by tauto.
      apply lookup_insert_ne. intros ->. tauto.
Qed.

Lemma dict_comprehension_raise f (before : list Z) key (after : list Z) e d :
  (forall key', key' ∈ before -> exists v, f key' = Ok v) ->
  f key = Raise e ->
  BlenderMesh.dict_comprehension f (before ++ key :: after)%list d = Raise e.
Proof.
  revert d. induction before as [| k before IH]; intros d Hall He; cbn.
  - now rewrite He.
  - destruct (Hall k ltac:(apply elem_of_cons; now left)) as [v Hv].
    rewrite Hv. apply IH; [| exact He].
    intros key' Hin. apply Hall, elem_of_cons. now right.
Qed.

Lemma keys_or_all_nonempty (before : list Z) key (after : list Z) n :
  BlenderMesh.keys_or_all (Some (before ++ key :: after)%list) n
  = (before ++ key :: after)%list.
Proof. now destruct before. Qed.

(** Every method written as a comprehension over [keys_or_all] has the
    three properties. *)
Lemma comprehension_one_item_per_key n f :
  BlenderMesh.one_item_per_key n f
    (fun selection =>
       BlenderMesh.dict_comprehension f (BlenderMesh.keys_or_all selection n) ∅).
Proof.
  split; [reflexivity |]. split.
  - intros selection Hall.
    destruct (dict_comprehension_ok f (BlenderMesh.keys_or_all selection n) ∅ Hall)
      as (d & Hd & Hlook).
    exists d. split; [exact Hd |]. intros key. split.
    + apply Hlook.
    + intros Hnin. rewrite (proj2 (Hlook key) Hnin). apply lookup_empty.
  - intros before key after e Hall He.
    rewrite keys_or_all_nonempty. now apply dict_comprehension_raise.
Qed.

End BlenderMeshProperties.

(** X19. The plural accessors of the Blender mesh
    ([get_edges_vertex_indices], [edges_lengths], [get_faces_vertex_indices],
    [faces_normals], [faces_areas]): asked for the empty list they answer as
    when asked for nothing, that is for all the edges (faces) of the mesh;
    when the singular accessor succeeds on every selected key they return
    the dict whose keys are exactly the selected ones, each with what the
    singular accessor returns for it; otherwise they raise what the singular
    accessor raises on the first selected key where it fails. *)
Theorem mesh_plural_accessors (n_edges n_polygons : nat)
    (edge_vertices : Z -> result (list Z)) (vertex_co : Z -> result (list R))
    (polygon_vertices : Z -> result (list Z))
    (polygon_normal : Z -> result (list R)) (polygon_area : Z -> result R)
    (distance_point_point : list R -> list R -> result R) :
  BlenderMesh.one_item_per_key n_edges
    (BlenderMesh.get_edge_vertex_indices edge_vertices)
    (BlenderMesh.get_edges_vertex_indices n_edges edge_vertices)
  /\ BlenderMesh.one_item_per_key n_edges
       (BlenderMesh.edge_length edge_vertices vertex_co distance_point_point)
       (BlenderMesh.edges_lengths n_edges edge_vertices vertex_co
          distance_point_point)
  /\ BlenderMesh.one_item_per_key n_polygons
       (BlenderMesh.get_face_vertex_indices polygon_vertices)
       (BlenderMesh.get_faces_vertex_indices n_polygons polygon_vertices)
  /\ BlenderMesh.one_item_per_key n_polygons
       (BlenderMesh.face_normal polygon_normal)
       (BlenderMesh.faces_normals n_polygons polygon_normal)
  /\ BlenderMesh.one_item_per_key n_polygons
       (BlenderMesh.face_area polygon_area)
       (BlenderMesh.faces_areas n_polygons polygon_area).
Proof.
  repeat split; apply comprehension_one_item_per_key.
Qed.

(** * Instances of the further properties *)



(** [Arc(worldXY, 2.0, pi, 0.0)._verify()] raises. *)
Lemma verify_on_stored_angles_witness :
  Arc._verify backward_arc = (Raise (InvalidGeometry (0 - PI)), backward_arc).
Proof.
  apply (verify_on_stored_angles (Arc.VFrame WorldFrame.worldXY) 2 PI 0
           PI_in_range zero_in_range).
  exact PI_RGT_0.
Defined.


(** [arc[1] = 3.0] on [Arc(worldXY, 2.0, 0.0, pi)], then [arc[1]]. *)
Lemma setitem_then_getitem_witness :
  Arc.__getitem__ 1
    (Arc.mkArc (Arc.VFrame WorldFrame.worldXY) (Some 3) (Some 0) (Some PI))
  = (Ok (Arc.VFloat 3),
     Arc.mkArc (Arc.VFrame WorldFrame.worldXY) (Some 3) (Some 0) (Some PI)).
Proof.
  apply (setitem_then_getitem 1 (Arc.VFloat 3) half_circle).
  apply (set_radius_stores half_circle 3). lra.
Defined.

(** An arc without attributes compared with [[None, 1.0, 0.0, 0.0]]: the
    frames are both [None]. *)
Lemma eq_on_unset_radius_witness :
  Arc.__eq__ WorldFrame.Frame_eq
    (Arc.PList [Arc.VNone; Arc.VFloat 1; Arc.VFloat 0; Arc.VFloat 0]) Arc.blank
  = (Raise NotSet_radius, Arc.blank).
Proof.
  apply (eq_on_unset_radius WorldFrame.Frame_eq
           (Arc.PList [Arc.VNone; Arc.VFloat 1; Arc.VFloat 0; Arc.VFloat 0])
           Arc.VNone None None Arc.VNone (Arc.VFloat 1) (Arc.VFloat 0) (Arc.VFloat 0)).
  reflexivity.
Defined.

Lemma norm_zero : sqrt (0 * 0 + 0 * 0 + 0 * 0 + 0 * 0) = 0.
Proof.
  replace (0 * 0 + 0 * 0 + 0 * 0 + 0 * 0) with 0 by ring. exact sqrt_0.
Qed.

(** [Quaternion(0, 0, 0, 0).unitize()] and [.unitized], under the algebra of
    the specification. *)
Lemma failure_writes_nothing_witness :
  Quaternion.unitized transformations.quaternion_unitize 1%positive store0
  = Some (Raise ZeroDivisionError, store0)
  /\ Quaternion.unitize transformations.quaternion_unitize 1%positive store0
     = Some (Raise ZeroDivisionError, store0).
Proof.
  destruct (failure_writes_nothing
              transformations.quaternion_multiply
              transformations.quaternion_conjugate
              transformations.quaternion_unitize
              transformations.quaternion_canonize
              store0 1%positive (Quaternion.mkQuaternion 0 0 0 0)
              (lookup_singleton_eq _ _)) as [Hraise _].
  destruct (Hraise ZeroDivisionError) as (_ & Hu & _).
  apply Hu. exact (unitize_zero_norm 0 0 0 0 norm_zero).
Defined.

Lemma norm_two_after_canonize :
  sqrt (- - 2 * - - 2 + - 0 * - 0 + - 0 * - 0 + - 0 * - 0) <> 0.
Proof.
  assert (H : 0 < sqrt (- - 2 * - - 2 + - 0 * - 0 + - 0 * - 0 + - 0 * - 0))
    by (apply sqrt_lt_R0; lra).
  lra.
Qed.

(** [q.canonize(); q.unitize()] and [q.canonized.unitized] on
    [Quaternion(-2, 0, 0, 0)], under the algebra of the specification. *)
Lemma in_place_chain_is_value_chain_witness :
  exists (unit_q : Quaternion.Quaternion),
    (exists h2,
        Quaternion.bind
          (Quaternion.canonize transformations.quaternion_canonize 1%positive)
          (fun _ => Quaternion.unitize transformations.quaternion_unitize 1%positive)
          store2
        = Some (Ok tt, h2)
        /\ h2 !! 1%positive = Some unit_q)
    /\ (exists l1 l2 h2,
        Quaternion.bind
          (Quaternion.canonized transformations.quaternion_canonize 1%positive)
          (fun l1 => Quaternion.unitized transformations.quaternion_unitize l1)
          store2
        = Some (Ok l2, h2)
        /\ h2 !! l2 = Some unit_q
        /\ h2 !! 1%positive = Some (Quaternion.mkQuaternion (- 2) 0 0 0)
        /\ l1 <> l2).
Proof.
  destruct (in_place_chain_is_value_chain
              transformations.quaternion_unitize
              transformations.quaternion_canonize
              store2 1%positive (Quaternion.mkQuaternion (- 2) 0 0 0)
              _ _ _ _ _ _ _ _
              (lookup_insert_eq _ _ _)
              (canonize_negative (- 2) 0 0 0 ltac:(lra))
              (unitize_nonzero_norm (- - 2) (- 0) (- 0) (- 0) norm_two_after_canonize))
    as [(h2 & H1 & H2 & _) (l1 & l2 & h2' & H3 & H4 & _ & H6 & _ & _ & H9 & _)].
  eexists. split.
  - exists h2. split; [exact H1 | exact H2].
  - exists l1, l2, h2'. auto.
Defined.

Lemma one_edge_between_nodes :
  Forall (fun edge : Z * Z => fst edge ∈ two_nodes /\ snd edge ∈ two_nodes) one_edge.
Proof.
  repeat constructor; cbn; unfold two_nodes; set_solver.
Qed.

(** [draw] on the network of two nodes and one edge: the defaults are used
    for the colours and the width, the radius of the circles is [5 / 2]. *)
Lemma draw_adds_lines_then_circles_witness :
  exists self',
    NetworkArtist.draw two_nodes one_edge on_the_x_axis 2 100 plain_artist
    = (NetworkArtist.Done tt, self')
    /\ NetworkArtist.axes self'
       = [NetworkArtist.Lines
            (NetworkArtist.mkLineCollection
               [((IZR 0, 0), (IZR 1, 0))] [1] [NetworkArtist.default_edgecolor]
               NetworkArtist.zorder_edges);
          NetworkArtist.Patches
            [NetworkArtist.mkCircle (IZR 0, 0) (5 / 2) NetworkArtist.default_nodecolor;
             NetworkArtist.mkCircle (IZR 1, 0) (5 / 2) NetworkArtist.default_nodecolor]
            NetworkArtist.zorder_nodes].
Proof.
  destruct (draw_adds_lines_then_circles two_nodes one_edge on_the_x_axis 2 100
              plain_artist ∅ ∅ ∅ eq_refl eq_refl eq_refl eq_refl
              one_edge_between_nodes ltac:(cbn; lra))
    as (self' & Hdraw & Haxes & _).
  exists self'. split; [exact Hdraw | exact Haxes].
Defined.

(** [draw] on a network without nodes, and on a network whose edge ends at
    a node it does not have. *)
Lemma draw_failures_witness :
  (exists self' the_lines,
      NetworkArtist.draw [] [] on_the_x_axis 0 100 plain_artist
      = (NetworkArtist.Fail NetworkArtist.ZeroDivisionError, self')
      /\ NetworkArtist.axes self' = [NetworkArtist.Lines the_lines])
  /\ NetworkArtist.draw [0%Z] one_edge on_the_x_axis 1 100 plain_artist
     = (NetworkArtist.Fail NetworkArtist.KeyError, plain_artist).
Proof.
  split.
  - destruct (draw_failures [] [] on_the_x_axis 0 100 plain_artist ∅ ∅
                eq_refl eq_refl eq_refl) as [_ Hzero].
    destruct (Hzero (List.Forall_nil _) eq_refl) as (self' & the_lines & H1 & H2 & _).
    exists self', the_lines. split; [exact H1 | exact H2].
  - destruct (draw_failures [0%Z] one_edge on_the_x_axis 1 100 plain_artist ∅ ∅
                eq_refl eq_refl eq_refl) as [Hkey _].
    apply Hkey. apply Exists_cons_hd. right. cbn. set_solver.
Defined.
